(** * FSWatcher: the watch-configuration-to-event-dispatch engine of watcher.py

    A shallow embedding of [src/watcher.py]: the mask resolver
    ([WatcherDaemon._parse_mask], [_add_mask]), the command expander
    ([EventHandler.shellquote], [run_command], the [process_in_*] methods),
    the start-up loop ([WatcherDaemon.run]), the [Daemon] class
    ([daemonize], [start], [stop], [restart], [status], [delpid]) and the
    dispatch of the script on its command, with the way a pyinotify
    notifier looks a handler method up by name.

    Text is modelled by [string]; a character stands for a code point
    below 256.  Python integers are [Z].  What the program takes from
    outside (the inotify flag values, [os.system], the pyinotify calls,
    the configuration object) is a record or a section variable. *)

From Stdlib Require Import ZArith List String Ascii Bool Lia Permutation Btauto.
From Stdlib Require Import Numbers.DecimalString.
Import ListNotations.
Open Scope string_scope.
Open Scope Z_scope.

(** ** Python string primitives used by the program *)

(** [str.isspace] on one character, for code points below 256. *)
Definition py_isspace (c : ascii) : bool :=
  let n := N_of_ascii c in
  ((9 <=? n) && (n <=? 13) || (28 <=? n) && (n <=? 32)
   || (n =? 133) || (n =? 160))%N.

(** [str.lstrip()] *)
Fixpoint lstrip (s : string) : string :=
  match s with
  | EmptyString => EmptyString
  | String c s' => if py_isspace c then lstrip s' else s
  end.

(** [str.rstrip()] *)
Fixpoint rstrip (s : string) : string :=
  match s with
  | EmptyString => EmptyString
  | String c s' =>
      match rstrip s' with
      | EmptyString => if py_isspace c then EmptyString else String c EmptyString
      | r => String c r
      end
  end.

(** [str.strip()] *)
Definition strip (s : string) : string := lstrip (rstrip s).

(** [str.split(sep)] for a one-character separator: never the empty list. *)
Fixpoint split (sep : ascii) (s : string) : list string :=
  match s with
  | EmptyString => [EmptyString]
  | String c s' =>
      if Ascii.eqb c sep then EmptyString :: split sep s'
      else match split sep s' with
           | [] => [String c EmptyString]
           | w :: ws => String c w :: ws
           end
  end.

(** [str.replace(old, new)] for a one-character [old]. *)
Fixpoint replace (old : ascii) (new : string) (s : string) : string :=
  match s with
  | EmptyString => EmptyString
  | String c s' =>
      if Ascii.eqb c old then new ++ replace old new s'
      else String c (replace old new s')
  end.

(** [str(n)] for an integer. *)
Definition str_of_Z (n : Z) : string := NilZero.string_of_int (Z.to_int n).

(** The values [shellquote] is called with: text or an integer. *)
Inductive pyval :=
| VStr (s : string)
| VInt (n : Z).

(** [str(v)] *)
Definition str (v : pyval) : string :=
  match v with
  | VStr s => s
  | VInt n => str_of_Z n
  end.

(** ** Mask Resolver *)

(** The twelve [pyinotify.IN_*] constants the program names.  Their values
    live in pyinotify, so the resolver is parametrised by them. *)
Record InotifyFlags := {
  IN_ACCESS : Z;
  IN_ATTRIB : Z;
  IN_CLOSE_WRITE : Z;
  IN_CLOSE_NOWRITE : Z;
  IN_CREATE : Z;
  IN_DELETE : Z;
  IN_DELETE_SELF : Z;
  IN_MODIFY : Z;
  IN_MOVE_SELF : Z;
  IN_MOVED_FROM : Z;
  IN_MOVED_TO : Z;
  IN_OPEN : Z
}.

(** The values of [<sys/inotify.h>], which pyinotify exports. *)
Definition linux_flags : InotifyFlags := {|
  IN_ACCESS := 1;
  IN_MODIFY := 2;
  IN_ATTRIB := 4;
  IN_CLOSE_WRITE := 8;
  IN_CLOSE_NOWRITE := 16;
  IN_OPEN := 32;
  IN_MOVED_FROM := 64;
  IN_MOVED_TO := 128;
  IN_CREATE := 256;
  IN_DELETE := 512;
  IN_DELETE_SELF := 1024;
  IN_MOVE_SELF := 2048
|}.

(** The variable [ret] of [_parse_mask]: it starts as the boolean [False]
    and becomes an integer with the first recognised token. *)
Inductive py_mask :=
| PyFalse
| PyInt (z : Z).

(** Python truthiness of [ret]: [False] and [0] are falsy. *)
Definition truthy (m : py_mask) : bool :=
  match m with
  | PyFalse => false
  | PyInt z => negb (z =? 0)
  end.

(** The integer a mask stands for ([False == 0] in Python). *)
Definition mask_value (m : py_mask) : Z :=
  match m with
  | PyFalse => 0
  | PyInt z => z
  end.

(** [WatcherDaemon._add_mask] *)
Definition _add_mask (new_option : Z) (current_options : py_mask) : py_mask :=
  if negb (truthy current_options) then PyInt new_option
  else PyInt (Z.lor (mask_value current_options) new_option).

Section MaskResolver.
Variable F : InotifyFlags.

(** The [all_mask] expression of [_parse_mask]. *)
Definition all_mask : Z :=
  Z.lor (Z.lor (Z.lor (Z.lor (Z.lor (Z.lor (Z.lor (Z.lor (Z.lor (Z.lor (Z.lor
    (IN_ACCESS F) (IN_ATTRIB F)) (IN_CLOSE_WRITE F)) (IN_CLOSE_NOWRITE F))
    (IN_CREATE F)) (IN_DELETE F)) (IN_DELETE_SELF F)) (IN_MODIFY F))
    (IN_MOVE_SELF F)) (IN_MOVED_FROM F)) (IN_MOVED_TO F)) (IN_OPEN F).

(** One turn of the [for mask in masks] loop: the strip, then the
    if/elif chain in the order of the source. *)
Definition parse_mask_step (ret : py_mask) (mask : string) : py_mask :=
  let mask := strip mask in
  if String.eqb "access" mask then _add_mask (IN_ACCESS F) ret
  else if String.eqb "attribute_change" mask then _add_mask (IN_ATTRIB F) ret
  else if String.eqb "write_close" mask then _add_mask (IN_CLOSE_WRITE F) ret
  else if String.eqb "nowrite_close" mask then _add_mask (IN_CLOSE_NOWRITE F) ret
  else if String.eqb "create" mask then _add_mask (IN_CREATE F) ret
  else if String.eqb "delete" mask then _add_mask (IN_DELETE F) ret
  else if String.eqb "self_delete" mask then _add_mask (IN_DELETE_SELF F) ret
  else if String.eqb "modify" mask then _add_mask (IN_MODIFY F) ret
  else if String.eqb "self_move" mask then _add_mask (IN_MOVE_SELF F) ret
  else if String.eqb "move_from" mask then _add_mask (IN_MOVED_FROM F) ret
  else if String.eqb "move_to" mask then _add_mask (IN_MOVED_TO F) ret
  else if String.eqb "open" mask then _add_mask (IN_OPEN F) ret
  else if String.eqb "all" mask then _add_mask all_mask ret
  else if String.eqb "move" mask then
    _add_mask (Z.lor (IN_MOVED_FROM F) (IN_MOVED_TO F)) ret
  else if String.eqb "close" mask then
    _add_mask (Z.lor (IN_CLOSE_WRITE F) (IN_CLOSE_NOWRITE F)) ret
  else ret.

(** [WatcherDaemon._parse_mask] *)
Definition _parse_mask (masks : list string) : py_mask :=
  fold_left parse_mask_step masks PyFalse.

(** The table of section 4.1 of the specification, as the specification
    words it: a token and what it expands to. *)
Definition spec_table : list (string * Z) :=
  [ ("access", IN_ACCESS F);
    ("attribute_change", IN_ATTRIB F);
    ("write_close", IN_CLOSE_WRITE F);
    ("nowrite_close", IN_CLOSE_NOWRITE F);
    ("create", IN_CREATE F);
    ("delete", IN_DELETE F);
    ("self_delete", IN_DELETE_SELF F);
    ("modify", IN_MODIFY F);
    ("self_move", IN_MOVE_SELF F);
    ("move_from", IN_MOVED_FROM F);
    ("move_to", IN_MOVED_TO F);
    ("open", IN_OPEN F);
    ("move", Z.lor (IN_MOVED_FROM F) (IN_MOVED_TO F));
    ("close", Z.lor (IN_CLOSE_WRITE F) (IN_CLOSE_NOWRITE F));
    ("all",
     fold_right Z.lor 0
       [IN_ACCESS F; IN_ATTRIB F; IN_CLOSE_WRITE F; IN_CLOSE_NOWRITE F;
        IN_CREATE F; IN_DELETE F; IN_DELETE_SELF F; IN_MODIFY F;
        IN_MOVE_SELF F; IN_MOVED_FROM F; IN_MOVED_TO F; IN_OPEN F]) ].

(** The table value of a token, if the token is in the table. *)
Fixpoint table_lookup (tbl : list (string * Z)) (tok : string) : option Z :=
  match tbl with
  | [] => None
  | (name, v) :: tbl' => if String.eqb name tok then Some v else table_lookup tbl' tok
  end.

Definition token_value (tok : string) : option Z := table_lookup spec_table tok.

Definition recognized (tok : string) : Prop := token_value tok <> None.

(** The bitwise OR of the table values of the tokens of a list. *)
Fixpoint or_of_tokens (toks : list string) : Z :=
  match toks with
  | [] => 0
  | t :: ts =>
      match token_value t with
      | Some v => Z.lor v (or_of_tokens ts)
      | None => or_of_tokens ts
      end
  end.
End MaskResolver.

(** ** The shell's reading of a command line

    [os.system] hands the command to [sh -c].  What follows is the token
    recognition and quoting of the POSIX shell (XCU 2.2 and 2.3) for one
    line: blanks separate words, a backslash keeps the next character, single
    quotes keep everything up to the next single quote, double quotes keep
    everything but dollar, backquote and backslash.  A word that the shell
    would still expand (dollar, backquote, a glob character or a tilde
    outside single quotes) is reported as [NeedsExpansion], so that a
    result [Lexed ws] lists literal words and operators only. *)

Definition squote : ascii := "'"%char.
Definition dquote : ascii := "034"%char.
Definition backslash : ascii := "\"%char.
Definition dollar : ascii := "$"%char.
Definition backquote : ascii := "`"%char.
Definition newline : ascii := "010"%char.

Inductive token :=
| TWord (w : string)
| TOp (c : ascii).

Inductive lex_error :=
| Unterminated
| NeedsExpansion.

Inductive lexed :=
| Lexed (ts : list token)
| LexError (e : lex_error).

Inductive lex_mode :=
| Unquoted
| Escaped
| SingleQuoted
| DoubleQuoted
| DoubleEscaped
| InComment.

Definition is_blank (c : ascii) : bool :=
  Ascii.eqb c " " || Ascii.eqb c "009".

Definition is_operator (c : ascii) : bool :=
  Ascii.eqb c ";" || Ascii.eqb c "&" || Ascii.eqb c "|" || Ascii.eqb c "<"
  || Ascii.eqb c ">" || Ascii.eqb c "(" || Ascii.eqb c ")" || Ascii.eqb c newline.

Definition is_expansion (c : ascii) : bool :=
  Ascii.eqb c dollar || Ascii.eqb c backquote || Ascii.eqb c "*"
  || Ascii.eqb c "?" || Ascii.eqb c "[" || Ascii.eqb c "~".

(** The word being read, if one has been started. *)
Definition word_so_far (cur : option string) : string :=
  match cur with
  | Some w => w
  | None => EmptyString
  end.

Definition push (cur : option string) (c : ascii) : option string :=
  Some (word_so_far cur ++ String c EmptyString).

Definition cons_token (t : token) (r : lexed) : lexed :=
  match r with
  | Lexed ts => Lexed (t :: ts)
  | LexError e => LexError e
  end.

Definition flush (cur : option string) (r : lexed) : lexed :=
  match cur with
  | Some w => cons_token (TWord w) r
  | None => r
  end.

Fixpoint sh_lex_from (m : lex_mode) (cur : option string) (s : string) : lexed :=
  match s with
  | EmptyString =>
      match m with
      | Unquoted | InComment => flush cur (Lexed [])
      | _ => LexError Unterminated
      end
  | String c s' =>
      match m with
      | Unquoted =>
          if Ascii.eqb c squote then sh_lex_from SingleQuoted (Some (word_so_far cur)) s'
          else if Ascii.eqb c dquote then sh_lex_from DoubleQuoted (Some (word_so_far cur)) s'
          else if Ascii.eqb c backslash then sh_lex_from Escaped cur s'
          else if is_blank c then flush cur (sh_lex_from Unquoted None s')
          else if is_operator c then
            flush cur (cons_token (TOp c) (sh_lex_from Unquoted None s'))
          else if is_expansion c then LexError NeedsExpansion
          else if Ascii.eqb c "#" then
            match cur with
            | None => sh_lex_from InComment None s'
            | Some _ => sh_lex_from Unquoted (push cur c) s'
            end
          else sh_lex_from Unquoted (push cur c) s'
      | Escaped =>
          if Ascii.eqb c newline then sh_lex_from Unquoted cur s'
          else sh_lex_from Unquoted (push cur c) s'
      | SingleQuoted =>
          if Ascii.eqb c squote then sh_lex_from Unquoted cur s'
          else sh_lex_from SingleQuoted (push cur c) s'
      | DoubleQuoted =>
          if Ascii.eqb c dquote then sh_lex_from Unquoted cur s'
          else if Ascii.eqb c backslash then sh_lex_from DoubleEscaped cur s'
          else if Ascii.eqb c dollar || Ascii.eqb c backquote then LexError NeedsExpansion
          else sh_lex_from DoubleQuoted (push cur c) s'
      | DoubleEscaped =>
          if Ascii.eqb c newline then sh_lex_from DoubleQuoted cur s'
          else if Ascii.eqb c dollar || Ascii.eqb c backquote
                  || Ascii.eqb c dquote || Ascii.eqb c backslash
          then sh_lex_from DoubleQuoted (push cur c) s'
          else sh_lex_from DoubleQuoted (push (push cur backslash) c) s'
      | InComment =>
          if Ascii.eqb c newline then cons_token (TOp c) (sh_lex_from Unquoted None s')
          else sh_lex_from InComment None s'
      end
  end.

(** The tokens of a command line. *)
Definition sh_lex (s : string) : lexed := sh_lex_from Unquoted None s.

(** ** Exceptions and results *)

Inductive exn :=
| KeyError (name : string)
| ValueError (msg : string)
| OSError (msg : string)
| NoOptionError (opt : string) (section : string)
| OtherError (msg : string).

Inductive result (A : Type) :=
| Ok (a : A)
| Raise (e : exn).
Arguments Ok {A} a.
Arguments Raise {A} e.

(** ** [string.Template.substitute]

    The delimiter is the dollar; after it come, in the order of the
    pattern's alternatives, a second dollar (an escaped dollar), an
    identifier [[_a-zA-Z][_a-zA-Z0-9]*] taken as long as it goes, the same
    between braces, or anything else, which is invalid.  A name missing
    from the keyword arguments raises [KeyError], an invalid placeholder
    [ValueError]; the matches are converted from left to right, so the
    first failure is the one raised.  The [ValueError] here carries the
    first words of the message only: [string.Template] goes on with the
    line and the column of the dollar, which no statement below speaks
    of. *)

Definition is_id_start (c : ascii) : bool :=
  let n := N_of_ascii c in
  ((n =? 95) || (97 <=? n) && (n <=? 122) || (65 <=? n) && (n <=? 90))%N.

Definition is_id_char (c : ascii) : bool :=
  let n := N_of_ascii c in
  is_id_start c || ((48 <=? n) && (n <=? 57))%N.

Definition kwargs := list (string * string).

Fixpoint kw_get (kw : kwargs) (name : string) : option string :=
  match kw with
  | [] => None
  | (k, v) :: kw' => if String.eqb k name then Some v else kw_get kw' name
  end.

Definition kw_lookup (kw : kwargs) (name : string) : result string :=
  match kw_get kw name with
  | Some v => Ok v
  | None => Raise (KeyError name)
  end.

(** The [ValueError] of an invalid placeholder, with the start of its
    message; the line and the column that follow it are left out. *)
Definition invalid_placeholder : exn := ValueError "Invalid placeholder in string".

(** Put already expanded text in front of the expansion of the rest. *)
Definition prepend (p : string) (r : result string) : result string :=
  match r with
  | Ok s => Ok (p ++ s)
  | Raise e => Raise e
  end.

Definition and_then (r : result string) (k : string -> result string) : result string :=
  match r with
  | Ok s => k s
  | Raise e => Raise e
  end.

Inductive tstate :=
| TNormal
| TDollar
| TNamed (acc : string)
| TBraced (acc : string).

Fixpoint substitute_from (kw : kwargs) (st : tstate) (s : string) : result string :=
  match s with
  | EmptyString =>
      match st with
      | TNormal => Ok EmptyString
      | TDollar => Raise invalid_placeholder
      | TNamed acc => kw_lookup kw acc
      | TBraced _ => Raise invalid_placeholder
      end
  | String c s' =>
      match st with
      | TNormal =>
          if Ascii.eqb c dollar then substitute_from kw TDollar s'
          else prepend (String c EmptyString) (substitute_from kw TNormal s')
      | TDollar =>
          if Ascii.eqb c dollar then
            prepend (String dollar EmptyString) (substitute_from kw TNormal s')
          else if is_id_start c then substitute_from kw (TNamed (String c EmptyString)) s'
          else if Ascii.eqb c "{" then substitute_from kw (TBraced EmptyString) s'
          else Raise invalid_placeholder
      | TNamed acc =>
          if is_id_char c then substitute_from kw (TNamed (acc ++ String c EmptyString)) s'
          else
            and_then (kw_lookup kw acc) (fun v =>
              prepend v
                (if Ascii.eqb c dollar then substitute_from kw TDollar s'
                 else prepend (String c EmptyString) (substitute_from kw TNormal s')))
      | TBraced acc =>
          if Ascii.eqb c "}" then
            match acc with
            | EmptyString => Raise invalid_placeholder
            | _ => and_then (kw_lookup kw acc) (fun v =>
                     prepend v (substitute_from kw TNormal s'))
            end
          else if match acc with
                  | EmptyString => is_id_start c
                  | _ => is_id_char c
                  end
          then substitute_from kw (TBraced (acc ++ String c EmptyString)) s'
          else Raise invalid_placeholder
      end
  end.

(** [Template(template).substitute] with keyword arguments [kw] *)
Definition substitute (template : string) (kw : kwargs) : result string :=
  substitute_from kw TNormal template.

(** ** What the program does to the outside, and a small monad for it

    A computation yields the effects it performed, in order, and either a
    value or the exception that left it. *)

(** [EventHandler]: the object holds the command template. *)
Record EventHandler := { command : string }.

(** The arguments of one [watch_manager.add_watch] call.  The exclusion
    filter is [None] or the pattern list given to [pyinotify.ExcludeFilter]. *)
Record WatchRequest := {
  w_folder : string;
  w_mask : py_mask;
  w_rec : bool;
  w_auto_add : bool;
  w_exclude_filter : option (list string)
}.

(** [pyinotify.ThreadedNotifier(watch_manager, handler)]: the manager holds
    the one watch requested on it. *)
Record Notifier := {
  n_watch : WatchRequest;
  n_handler : EventHandler
}.

Inductive effect :=
| Print (line : string)
| System (cmd : string)
| Log (msg : string)
| AddWatch (w : WatchRequest)
| Start (n : Notifier).

Definition M (A : Type) : Type := (list effect * result A)%type.

Definition ret {A : Type} (a : A) : M A := ([], Ok a).

Definition bind {A B : Type} (m : M A) (k : A -> M B) : M B :=
  match m with
  | (t, Ok a) => let (t', r) := k a in ((t ++ t')%list, r)
  | (t, Raise e) => (t, Raise e)
  end.

Definition lift {A : Type} (r : result A) : M A := ([], r).

Definition emit (e : effect) : M unit := ([e], Ok tt).

Declare Scope py_scope.
Delimit Scope py_scope with py.
Notation "x <- m ;; k" := (bind m (fun x => k))
  (at level 61, m at next level, right associativity) : py_scope.
Notation "m ;;; k" := (bind m (fun _ => k))
  (at level 61, right associativity) : py_scope.
Open Scope py_scope.

(** [try: body except OSError as err: handler(err)] *)
Definition try_except_OSError (body : M unit) (handler : string -> M unit) : M unit :=
  match body with
  | (t, Raise (OSError err)) => let (t', r) := handler err in ((t ++ t')%list, r)
  | other => other
  end.

(** The effects and the outcome of a computation. *)
Definition trace {A : Type} (m : M A) : list effect := fst m.
Definition outcome {A : Type} (m : M A) : result A := snd m.

(** The commands handed to [os.system] in a trace. *)
Fixpoint dispatched (t : list effect) : list string :=
  match t with
  | [] => []
  | System cmd :: t' => cmd :: dispatched t'
  | _ :: t' => dispatched t'
  end.

(** The lines printed in a trace. *)
Fixpoint printed (t : list effect) : list string :=
  match t with
  | [] => []
  | Print l :: t' => l :: printed t'
  | _ :: t' => printed t'
  end.

(** The notifiers started in a trace. *)
Fixpoint started (t : list effect) : list Notifier :=
  match t with
  | [] => []
  | Start n :: t' => n :: started t'
  | _ :: t' => started t'
  end.

(** ** Command Expander and event handler *)

(** An event as pyinotify hands it to the handler.  [cookie] is [None]
    when the event object has no [cookie] attribute. *)
Record Event := {
  path : string;
  pathname : string;
  maskname : string;
  mask : Z;
  cookie : option Z
}.

(** [EventHandler.shellquote] *)
Definition shellquote (v : pyval) : string :=
  String squote EmptyString
  ++ replace squote "'\''" (str v)
  ++ String squote EmptyString.

(** The keyword arguments [run_command] gives to [substitute]. *)
Definition command_kwargs (event : Event) : kwargs :=
  [ ("watched", shellquote (VStr (path event)));
    ("filename", shellquote (VStr (pathname event)));
    ("tflags", shellquote (VStr (maskname event)));
    ("nflags", shellquote (VInt (mask event)));
    ("cookie", shellquote (VInt (match cookie event with
                                 | Some c => c
                                 | None => 0
                                 end))) ].

(** The command line of an event: the template of the handler expanded. *)
Definition expand (self : EventHandler) (event : Event) : result string :=
  substitute (command self) (command_kwargs event).

(** [print(a, b)]: the two texts with a space between. *)
Definition print2 (a b : string) : M unit := emit (Print (a ++ " " ++ b)).

Section Handler.
(** [os.system]: the exit status, or the exception it raised. *)
Variable os_system : string -> result Z.

Definition call_system (cmd : string) : M unit :=
  match os_system cmd with
  | Ok _ => ([System cmd], Ok tt)
  | Raise e => ([System cmd], Raise e)
  end.

(** [EventHandler.run_command] *)
Definition run_command (self : EventHandler) (event : Event) : M unit :=
  command <- lift (expand self event) ;;
  try_except_OSError
    (call_system command)
    (fun err =>
       emit (Print ("Failed to run command '" ++ command ++ "' " ++ err))).

Definition process_in_access (self : EventHandler) (event : Event) : M unit :=
  print2 "Access: " (pathname event) ;;; run_command self event.

Definition process_in_attrib (self : EventHandler) (event : Event) : M unit :=
  print2 "Attrib: " (pathname event) ;;; run_command self event.

Definition process_in_close_write (self : EventHandler) (event : Event) : M unit :=
  print2 "Close write: " (pathname event) ;;; run_command self event.

Definition process_in_close_nowrite (self : EventHandler) (event : Event) : M unit :=
  print2 "Close nowrite: " (pathname event) ;;; run_command self event.

Definition process_in_create (self : EventHandler) (event : Event) : M unit :=
  print2 "Creating: " (pathname event) ;;; run_command self event.

Definition process_in_delete (self : EventHandler) (event : Event) : M unit :=
  print2 "Deleteing: " (pathname event) ;;; run_command self event.

Definition process_in_modify (self : EventHandler) (event : Event) : M unit :=
  print2 "Modify: " (pathname event) ;;; run_command self event.

Definition process_in_move_self (self : EventHandler) (event : Event) : M unit :=
  print2 "Move self: " (pathname event) ;;; run_command self event.

Definition process_in_moved_from (self : EventHandler) (event : Event) : M unit :=
  print2 "Moved from: " (pathname event) ;;; run_command self event.

Definition process_in_moved_to (self : EventHandler) (event : Event) : M unit :=
  print2 "Moved to: " (pathname event) ;;; run_command self event.

Definition process_in_open (self : EventHandler) (event : Event) : M unit :=
  print2 "Opened: " (pathname event) ;;; run_command self event.

(** The eleven handler methods of the class. *)
Definition handler_methods : list (EventHandler -> Event -> M unit) :=
  [ process_in_access; process_in_attrib; process_in_close_write;
    process_in_close_nowrite; process_in_create; process_in_delete;
    process_in_modify; process_in_move_self; process_in_moved_from;
    process_in_moved_to; process_in_open ].
End Handler.

(** ** The configuration object

    [run] uses three methods of the [configparser] object it is given:
    [sections()], [get(section, option)] and [getboolean(section, option)]. *)
Record Config := {
  sections : list string;
  get : string -> string -> result string;
  getboolean : string -> string -> result bool
}.

(** A configuration read from an ini file, without a [DEFAULT] section and
    without interpolation: the sections in file order, each with its
    options, the option names in lower case as [configparser] keeps them. *)
Definition ini := list (string * list (string * string)).

Fixpoint ini_options (c : ini) (section : string) : option (list (string * string)) :=
  match c with
  | [] => None
  | (name, opts) :: c' =>
      if String.eqb name section then Some opts else ini_options c' section
  end.

Definition ini_get (c : ini) (section opt : string) : result string :=
  match ini_options c section with
  | None => Raise (OtherError ("No section: " ++ section))
  | Some opts =>
      match kw_get opts opt with
      | Some v => Ok v
      | None => Raise (NoOptionError opt section)
      end
  end.

(** [str.lower] on one character, for code points below 256. *)
Definition lower_char (c : ascii) : ascii :=
  let n := N_of_ascii c in
  if ((65 <=? n) && (n <=? 90)
      || (192 <=? n) && (n <=? 222) && negb (n =? 215))%N
  then ascii_of_N (n + 32) else c.

Fixpoint lower (s : string) : string :=
  match s with
  | EmptyString => EmptyString
  | String c s' => String (lower_char c) (lower s')
  end.

(** [configparser.RawConfigParser.BOOLEAN_STATES] *)
Definition BOOLEAN_STATES : list (string * bool) :=
  [ ("1", true); ("yes", true); ("true", true); ("on", true);
    ("0", false); ("no", false); ("false", false); ("off", false) ].

Fixpoint boolean_state (tbl : list (string * bool)) (v : string) : option bool :=
  match tbl with
  | [] => None
  | (k, b) :: tbl' => if String.eqb k v then Some b else boolean_state tbl' v
  end.

Definition ini_getboolean (c : ini) (section opt : string) : result bool :=
  match ini_get c section opt with
  | Raise e => Raise e
  | Ok v =>
      match boolean_state BOOLEAN_STATES (lower v) with
      | Some b => Ok b
      | None => Raise (ValueError ("Not a boolean: " ++ v))
      end
  end.

Definition config_of_ini (c : ini) : Config := {|
  sections := map fst c;
  get := ini_get c;
  getboolean := ini_getboolean c
|}.

(** ** Dispatch Supervisor: [WatcherDaemon.run] *)

(** [log(msg)]: a line on standard output, after the time of day. *)
Definition log (msg : string) : M unit := emit (Log msg).

(** The watch descriptors [add_watch] returns: a path and its descriptor. *)
Definition wdd := list (string * Z).

Section Daemon.
Variable F : InotifyFlags.
(** [pyinotify.ExcludeFilter(patterns)]: compiling the patterns may raise. *)
Variable ExcludeFilter : list string -> result unit.
(** [watch_manager.add_watch(...)] on a fresh manager. *)
Variable add_watch : WatchRequest -> result wdd.
Variable config : Config.

Definition call_add_watch (w : WatchRequest) : M wdd :=
  ([AddWatch w], add_watch w).

(** The [excl] of a section: [None] when [excluded] is blank. *)
Definition make_exclude_filter (excluded : string) : M (option (list string)) :=
  if String.eqb (strip excluded) EmptyString then ret None
  else
    lift (ExcludeFilter (split "," excluded)) ;;;
    ret (Some (split "," excluded)).

(** The body of the [for section in self.config.sections()] loop. *)
Definition setup_section (section : string) : M (wdd * Notifier) :=
  watch <- lift (get config section "watch") ;;
  log (section ++ ": " ++ watch) ;;;
  events <- lift (get config section "events") ;;
  let mask := _parse_mask F (split "," events) in
  folder <- lift (get config section "watch") ;;
  recursive <- lift (getboolean config section "recursive") ;;
  autoadd <- lift (getboolean config section "autoadd") ;;
  excluded <- lift (get config section "excluded") ;;
  command <- lift (get config section "command") ;;
  excl <- make_exclude_filter excluded ;;
  let handler := {| command := command |} in
  let w := {| w_folder := folder; w_mask := mask; w_rec := recursive;
              w_auto_add := autoadd; w_exclude_filter := excl |} in
  d <- call_add_watch w ;;
  ret (d, {| n_watch := w; n_handler := handler |}).

(** The first loop, with its two lists [wdds] and [notifiers]. *)
Fixpoint setup_all (secs : list string) (wdds : list wdd) (notifiers : list Notifier)
  : M (list wdd * list Notifier) :=
  match secs with
  | [] => ret (wdds, notifiers)
  | section :: secs' =>
      dn <- setup_section section ;;
      setup_all secs' (wdds ++ [fst dn]) (notifiers ++ [snd dn])
  end.

(** The second loop: [notifier.start()] for each notifier. *)
Fixpoint start_all (notifiers : list Notifier) : M unit :=
  match notifiers with
  | [] => ret tt
  | notifier :: rest => emit (Start notifier) ;;; start_all rest
  end.

(** [WatcherDaemon.run] *)
Definition run : M unit :=
  log "Daemon started" ;;;
  st <- setup_all (sections config) [] [] ;;
  start_all (snd st).
End Daemon.

(** ** The [Daemon] class and the outside it talks to

    The methods of [Daemon] fork, signal, and read and write the pid file.
    The outside is a [World]: the text files, what the next calls of
    [os.fork] and [os.kill] give, the pid of the process, and the calls the
    system refuses.  A computation yields the calls it made, in order, the
    world it leaves, and how it ended. *)

Record Daemon := {
  stdin : string;
  stdout : string;
  stderr : string;
  pidfile : string
}.

Inductive fork_result :=
| ForkReturns (pid : Z)
| ForkFails (errno : Z) (strerror : string).

Inductive os_call :=
| Fork
| Chdir (dir : string)
| Setsid
| Umask (m : Z)
| Flush (stream : string)
| OpenFile (file mode : string)
| CloseFile (file : string)
| Dup2 (file stream : string)
| AtexitRegister (file : string)
| WriteFile (file text : string)
| Kill (pid : Z)
| Sleep
| Remove (file : string)
| StderrWrite (text : string)
| PrintLine (text : string)
| RunEffect (e : effect).

Record World := {
  files : list (string * string);
  forks : list fork_result;
  kills : list (option exn);
  this_pid : Z;
  refused : os_call -> option exn
}.

(** How a computation ends: it returns, it reaches [sys.exit(code)]
    ([Exited]: [SystemExit] leaves the main thread, and the process ends
    with that code once no notifier thread that was started is running any
    more), an exception leaves it, or the outside has said nothing more
    about what comes next ([Pending]). *)
Inductive ending (A : Type) :=
| Done (a : A)
| Exited (code : Z)
| Failed (e : exn)
| Pending.
Arguments Done {A} a.
Arguments Exited {A} code.
Arguments Failed {A} e.
Arguments Pending {A}.

Definition D (A : Type) : Type := World -> list os_call * World * ending A.

Definition dret {A : Type} (a : A) : D A := fun w => ([], w, Done a).

Definition dbind {A B : Type} (m : D A) (k : A -> D B) : D B :=
  fun w =>
    match m w with
    | (t, w', Done a) => let '(t', w'', r) := k a w' in ((t ++ t')%list, w'', r)
    | (t, w', Exited c) => (t, w', Exited c)
    | (t, w', Failed e) => (t, w', Failed e)
    | (t, w', Pending) => (t, w', Pending)
    end.

Declare Scope daemon_scope.
Delimit Scope daemon_scope with daemon.
Notation "x <- m ;; k" := (dbind m (fun x => k))
  (at level 61, m at next level, right associativity) : daemon_scope.
Notation "m ;;; k" := (dbind m (fun _ => k))
  (at level 61, right associativity) : daemon_scope.
Open Scope daemon_scope.

(** [sys.exit(code)] *)
Definition sys_exit {A : Type} (code : Z) : D A := fun w => ([], w, Exited code).

Definition dlift {A : Type} (r : result A) : D A :=
  fun w => ([], w, match r with
                   | Ok a => Done a
                   | Raise e => Failed e
                   end).

(** A call that changes nothing in the world unless the system refuses it. *)
Definition sys (c : os_call) : D unit :=
  fun w => match refused w c with
           | Some e => ([c], w, Failed e)
           | None => ([c], w, Done tt)
           end.

(** [try: body except OSError as err: handler(str(err))]; [IOError] is
    the same class. *)
Definition try_OSError {A : Type} (body : D A) (handler : string -> D A) : D A :=
  fun w =>
    match body w with
    | (t, w', Failed (OSError msg)) =>
        let '(t', w'', r) := handler msg w' in ((t ++ t')%list, w'', r)
    | other => other
    end.

(** The text files of the world. *)
Fixpoint file_text (fs : list (string * string)) (file : string) : option string :=
  match fs with
  | [] => None
  | (name, text) :: fs' => if String.eqb name file then Some text else file_text fs' file
  end.

Fixpoint file_remove (fs : list (string * string)) (file : string)
  : list (string * string) :=
  match fs with
  | [] => []
  | (name, text) :: fs' =>
      if String.eqb name file then file_remove fs' file
      else (name, text) :: file_remove fs' file
  end.

Definition file_write (fs : list (string * string)) (file text : string)
  : list (string * string) :=
  (file, text) :: file_remove fs file.

Definition with_files (w : World) (fs : list (string * string)) : World := {|
  files := fs;
  forks := forks w;
  kills := kills w;
  this_pid := this_pid w;
  refused := refused w
|}.

Definition with_forks (w : World) (fk : list fork_result) : World := {|
  files := files w;
  forks := fk;
  kills := kills w;
  this_pid := this_pid w;
  refused := refused w
|}.

Definition with_kills (w : World) (ks : list (option exn)) : World := {|
  files := files w;
  forks := forks w;
  kills := ks;
  this_pid := this_pid w;
  refused := refused w
|}.

Definition nl : string := String newline EmptyString.

Definition no_such_file (file : string) : exn :=
  OSError ("[Errno 2] No such file or directory: '" ++ file ++ "'").

(** [open(file, "r")]: the file has to be there. *)
Definition open_read (file : string) : D unit :=
  sys (OpenFile file "r") ;;;
  fun w => match file_text (files w) file with
           | Some _ => ([], w, Done tt)
           | None => ([], w, Failed (no_such_file file))
           end.

(** [f.read()] of a file that was opened. *)
Definition read_all (file : string) : D string :=
  fun w => match file_text (files w) file with
           | Some text => ([], w, Done text)
           | None => ([], w, Done EmptyString)
           end.

(** [open(file, "a+")]: the file is created when it is not there. *)
Definition open_append (file : string) : D unit :=
  sys (OpenFile file "a+") ;;;
  fun w => match file_text (files w) file with
           | Some _ => ([], w, Done tt)
           | None => ([], with_files w (file_write (files w) file EmptyString), Done tt)
           end.

(** [open(file, "w+")]: the file is created or emptied. *)
Definition open_write (file : string) : D unit :=
  sys (OpenFile file "w+") ;;;
  fun w => ([], with_files w (file_write (files w) file EmptyString), Done tt).

(** [f.write(text)] on a file just opened with [open_write]. *)
Definition write_text (file text : string) : D unit :=
  sys (WriteFile file text) ;;;
  fun w => ([], with_files w (file_write (files w) file text), Done tt).

(** [os.path.exists(file)] *)
Definition path_exists (file : string) : D bool :=
  fun w => ([], w, Done (match file_text (files w) file with
                         | Some _ => true
                         | None => false
                         end)).

(** [os.remove(file)] *)
Definition os_remove (file : string) : D unit :=
  sys (Remove file) ;;;
  fun w => match file_text (files w) file with
           | Some _ => ([], with_files w (file_remove (files w) file), Done tt)
           | None => ([], w, Failed (no_such_file file))
           end.

(** [os.getpid()] *)
Definition getpid : D Z := fun w => ([], w, Done (this_pid w)).

(** [os.fork()]: the pid it returns, or the two fields of its [OSError]
    that [daemonize] prints. *)
Definition os_fork : D fork_result :=
  fun w => match forks w with
           | [] => ([Fork], w, Pending)
           | r :: rest => ([Fork], with_forks w rest, Done r)
           end.

(** [str.find(sub)]: the lowest index of [sub], or -1. *)
Fixpoint find_from (sub s : string) (i : Z) : Z :=
  if String.prefix sub s then i
  else match s with
       | EmptyString => -1
       | String _ s' => find_from sub s' (i + 1)
       end.

Definition find (s sub : string) : Z := find_from sub s 0.

(** Python truthiness of [pid], which is [None] or an integer. *)
Definition pid_truthy (pid : option Z) : bool :=
  match pid with
  | Some n => negb (n =? 0)
  | None => false
  end.

(** The integer of a [pid] that is not [None]. *)
Definition pid_number (pid : option Z) : Z :=
  match pid with
  | Some n => n
  | None => 0
  end.

(** The [while 1: os.kill(pid, SIGTERM); time.sleep(0.1)] loop against
    what the next calls of [os.kill] give: the calls made, what is left
    of the script, and the exception that ended the loop, if one did. *)
Fixpoint kill_until_raise (pid : Z) (script : list (option exn))
  : list os_call * list (option exn) * option exn :=
  match script with
  | [] => ([], [], None)
  | None :: rest =>
      let '(t, remaining, e) := kill_until_raise pid rest in
      (Kill pid :: Sleep :: t, remaining, e)
  | Some e :: rest => ([Kill pid], rest, Some e)
  end.

Definition kill_loop (pid : Z) : D unit :=
  fun w =>
    let '(t, remaining, e) := kill_until_raise pid (kills w) in
    (t, with_kills w remaining, match e with
                           | Some e => Failed e
                           | None => Pending
                           end).

(** The effects of a [run] of the first part, as calls of this one. *)
Definition in_world (m : M unit) : D unit :=
  fun w => (map RunEffect (trace m), w,
            match outcome m with
            | Ok _ => Done tt
            | Raise e => Failed e
            end).

Section DaemonClass.
(** The builtin [int] on a text. *)
Variable int_of_text : string -> result Z.
(** [self.run], which a subclass overrides. *)
Variable run_method : D unit.

(** The block that [start], [stop] and [status] begin with: the pid of the
    pid file, [None] when the file cannot be opened. *)
Definition read_pid (self : Daemon) : D (option Z) :=
  try_OSError
    (open_read (pidfile self) ;;;
     text <- read_all (pidfile self) ;;
     pid <- dlift (int_of_text (strip text)) ;;
     sys (CloseFile (pidfile self)) ;;;
     dret (Some pid))
    (fun _ => dret None).

(** One of the two forks of [daemonize], with its number in the message. *)
Definition fork_or_exit (number : string) : D unit :=
  r <- os_fork ;;
  match r with
  | ForkReturns pid => if pid >? 0 then sys_exit 0 else dret tt
  | ForkFails errno strerror =>
      sys (StderrWrite ("fork #" ++ number ++ " failed: " ++ str_of_Z errno
                        ++ " (" ++ strerror ++ ")" ++ nl)) ;;;
      sys_exit 1
  end.

(** [Daemon.daemonize] *)
Definition daemonize (self : Daemon) : D unit :=
  fork_or_exit "1" ;;;
  sys (Chdir "/") ;;;
  sys Setsid ;;;
  sys (Umask 0) ;;;
  fork_or_exit "2" ;;;
  sys (Flush "stdout") ;;;
  sys (Flush "stderr") ;;;
  open_read (stdin self) ;;;
  open_append (stdout self) ;;;
  open_append (stderr self) ;;;
  sys (Dup2 (stdin self) "stdin") ;;;
  sys (Dup2 (stdout self) "stdout") ;;;
  sys (Dup2 (stderr self) "stderr") ;;;
  sys (AtexitRegister (pidfile self)) ;;;
  pid <- getpid ;;
  open_write (pidfile self) ;;;
  write_text (pidfile self) (str_of_Z pid ++ nl).

(** [Daemon.delpid] *)
Definition delpid (self : Daemon) : D unit := os_remove (pidfile self).

(** [Daemon.start] *)
Definition start (self : Daemon) : D unit :=
  pid <- read_pid self ;;
  (if pid_truthy pid then
     sys (StderrWrite ("pidfile " ++ pidfile self
                       ++ " already exists. Daemon already running?" ++ nl)) ;;;
     sys_exit 1
   else dret tt) ;;;
  daemonize self ;;;
  run_method.

(** [Daemon.stop] *)
Definition stop (self : Daemon) : D unit :=
  pid <- read_pid self ;;
  if negb (pid_truthy pid) then
    sys (StderrWrite ("pidfile " ++ pidfile self
                      ++ " does not exist. Daemon not running?" ++ nl))
  else
    try_OSError
      (kill_loop (pid_number pid))
      (fun err =>
         if find err "No such process" >? 0 then
           there <- path_exists (pidfile self) ;;
           if there then os_remove (pidfile self) else dret tt
         else
           sys (PrintLine err) ;;;
           sys_exit 1).

(** [Daemon.restart] *)
Definition restart (self : Daemon) : D unit :=
  stop self ;;; start self.

(** [Daemon.status] *)
Definition status (self : Daemon) : D unit :=
  pid <- read_pid self ;;
  (if pid_truthy pid then sys (PrintLine "service running") ;;; sys_exit 0
   else dret tt) ;;;
  (if negb (pid_truthy pid) then sys (PrintLine "service not running") ;;; sys_exit 3
   else dret tt).
End DaemonClass.

(** ** The script: [WatcherDaemon] and the dispatch on the command *)

Section Script.
Variable F : InotifyFlags.
Variable ExcludeFilter : list string -> result unit.
Variable add_watch : WatchRequest -> result wdd.
Variable int_of_text : string -> result Z.
(** [config.read(names)]: the names that could be read, and the
    configuration they give. *)
Variable config_read : list string -> list string * Config.
(** [os.path.expanduser] *)
Variable expanduser : string -> string.

(** [WatcherDaemon.__init__] *)
Definition WatcherDaemon (config : Config) : D Daemon :=
  out <- dlift (get config "DEFAULT" "logfile") ;;
  err <- dlift (get config "DEFAULT" "logfile") ;;
  pidf <- dlift (get config "DEFAULT" "pidfile") ;;
  dret {| stdin := "/dev/null"; stdout := out; stderr := err; pidfile := pidf |}.

(** The [run] of a [WatcherDaemon]. *)
Definition watcher_run (config : Config) : D unit :=
  in_world (run F ExcludeFilter add_watch config).

(** The names [config.read] is given: the [--config] argument when it is
    there and not empty, else the two default places. *)
Definition config_names (args_config : option string) : list string :=
  match args_config with
  | Some (String c name) => [String c name]
  | _ => ["/etc/watcher.ini"; expanduser "~/.watcher.ini"]
  end.

(** The body of [if __name__ == "__main__"], after the arguments are
    parsed. *)
Definition main (args_config : option string) (args_command : string) : D unit :=
  let (confok, config) := config_read (config_names args_config) in
  (match confok with
   | [] => sys (StderrWrite ("Failed to read config file. Try -c parameter" ++ nl)) ;;;
           sys_exit 4
   | _ => dret tt
   end) ;;;
  daemon <- WatcherDaemon config ;;
  (if String.eqb "start" args_command then
     start int_of_text (watcher_run config) daemon
   else if String.eqb "stop" args_command then stop int_of_text daemon
   else if String.eqb "restart" args_command then
     restart int_of_text (watcher_run config) daemon
   else if String.eqb "status" args_command then status int_of_text daemon
   else if String.eqb "debug" args_command then watcher_run config
   else sys (PrintLine "Unkown Command") ;;; sys_exit 2) ;;;
  sys_exit 0.
End Script.

Close Scope daemon_scope.

(** ** How pyinotify calls the handler

    A started notifier hands every event of its watch to the handler
    object.  [ProcessEvent.__call__] takes the name of the kind of the
    event from its mask ([IN_CREATE], [IN_CLOSE_WRITE], ...), looks on the
    handler for an attribute [process_] followed by that name, then for
    [process_IN_] followed by the second part of the name, and calls
    [process_default] when there is neither. *)

Definition method : Type := EventHandler -> Event -> M unit.

Section Notifier.
Variable os_system : string -> result Z.

(** The methods that the body of [class EventHandler] defines, under the
    names it gives them. *)
Definition EventHandler_methods : list (string * method) :=
  [ ("process_in_access", process_in_access os_system);
    ("process_in_attrib", process_in_attrib os_system);
    ("process_in_close_write", process_in_close_write os_system);
    ("process_in_close_nowrite", process_in_close_nowrite os_system);
    ("process_in_create", process_in_create os_system);
    ("process_in_delete", process_in_delete os_system);
    ("process_in_modify", process_in_modify os_system);
    ("process_in_move_self", process_in_move_self os_system);
    ("process_in_moved_from", process_in_moved_from os_system);
    ("process_in_moved_to", process_in_moved_to os_system);
    ("process_in_open", process_in_open os_system) ].

(** [ProcessEvent.process_default], which the class inherits: it does
    nothing. *)
Definition process_default : method := fun _ _ => ret tt.

(** [ProcessEvent.process_IN_Q_OVERFLOW], inherited too: a warning through
    the logger of pyinotify, which is no effect of this program. *)
Definition process_IN_Q_OVERFLOW : method := fun _ _ => ret tt.

(** The [process_...] attributes of a handler object: its own methods,
    then the inherited ones. *)
Definition EventHandler_attributes : list (string * method) :=
  (EventHandler_methods
   ++ [ ("process_IN_Q_OVERFLOW", process_IN_Q_OVERFLOW);
        ("process_default", process_default) ])%list.

(** [getattr(self, name, None)]; attribute names are case sensitive. *)
Fixpoint getattr (attrs : list (string * method)) (name : string) : option method :=
  match attrs with
  | [] => None
  | (n, meth) :: attrs' => if String.eqb n name then Some meth else getattr attrs' name
  end.

(** [ProcessEvent.__call__] on an event whose kind pyinotify names [kind]. *)
Definition notifier_call (kind : string) : method :=
  fun self event =>
    match getattr EventHandler_attributes ("process_" ++ kind) with
    | Some meth => meth self event
    | None =>
        match split "_" kind with
        | _ :: family :: _ =>
            match getattr EventHandler_attributes ("process_IN_" ++ family) with
            | Some meth => meth self event
            | None => process_default self event
            end
        | _ => lift (Raise (OtherError "IndexError: list index out of range"))
        end
    end.
End Notifier.

(** ** Auxiliary notions for the statements *)

(** A text made of whitespace only. *)
Fixpoint all_space (s : string) : bool :=
  match s with
  | EmptyString => true
  | String c s' => py_isspace c && all_space s'
  end.

(** [padded t p]: [p] is the token [t] with whitespace around it. *)
Definition padded (t p : string) : Prop :=
  exists l r, all_space l = true /\ all_space r = true /\ p = l ++ t ++ r.

(** An identifier of a template placeholder. *)
Fixpoint all_id_char (s : string) : bool :=
  match s with
  | EmptyString => true
  | String c s' => is_id_char c && all_id_char s'
  end.

Definition is_identifier (s : string) : bool :=
  match s with
  | EmptyString => false
  | String c s' => is_id_start c && all_id_char s'
  end.

(** The placeholder names [run_command] defines. *)
Definition defined_placeholders : list string :=
  ["watched"; "filename"; "tflags"; "nflags"; "cookie"].

(** A computation that handled its failure: it returned normally and
    printed something. *)
Definition caught_and_logged (m : M unit) : Prop :=
  outcome m = Ok tt /\ printed (trace m) <> [].


(** What [print(a, b)] writes for a handler method and an event. *)
Definition method_labels : list string :=
  [ "Access: "; "Attrib: "; "Close write: "; "Close nowrite: "; "Creating: ";
    "Deleteing: "; "Modify: "; "Move self: "; "Moved from: "; "Moved to: ";
    "Opened: " ].

(** The text of a braced placeholder. *)
Definition placeholder (name : string) : string :=
  String dollar (String "{" (name ++ "}")).

(** ** Concrete events and configurations of the examples *)

(** The create event of a file [name] in the watched directory [dir]. *)
Definition created (F : InotifyFlags) (dir name : string) : Event := {|
  path := dir;
  pathname := dir ++ "/" ++ name;
  maskname := "IN_CREATE";
  mask := IN_CREATE F;
  cookie := None
|}.

(** One section of an ini file with the six options [run] reads. *)
Definition watch_section (name watch events excluded command : string)
  : string * list (string * string) :=
  (name, [ ("watch", watch); ("events", events); ("recursive", "false");
           ("autoadd", "false"); ("excluded", excluded); ("command", command) ]).

(** The watch specification of the example of section 8. *)
Definition watch_x_ini : ini :=
  [ watch_section "x" "/tmp/x" "create,delete" EmptyString "echo ${filename}" ].


(** Two sections, the second without its [events] option. *)
Definition two_jobs_ini : ini :=
  [ watch_section "a" "/tmp/a" "create" EmptyString "echo ${filename}";
    ("b", [ ("watch", "/tmp/b"); ("recursive", "false"); ("autoadd", "false");
            ("excluded", EmptyString); ("command", "echo ${filename}") ]) ].

(** The handler and the watch request [run] builds for [watch_x_ini]. *)
Definition echo_handler : EventHandler := {| command := "echo ${filename}" |}.

Definition watch_x_request (F : InotifyFlags) (excl : option (list string))
  : WatchRequest := {|
  w_folder := "/tmp/x";
  w_mask := PyInt (Z.lor (IN_CREATE F) (IN_DELETE F));
  w_rec := false;
  w_auto_add := false;
  w_exclude_filter := excl
|}.

(** Stand-ins for the outside: an [os.system] that returns 0, one that
    returns the status of a shell that could not find the program (exit
    code 127, so 127 * 256), a pattern compiler and an [add_watch] that
    succeed. *)
Definition system_ok (cmd : string) : result Z := Ok 0.
Definition system_not_found (cmd : string) : result Z := Ok 32512.
Definition compile_ok (patterns : list string) : result unit := Ok tt.
Definition add_watch_ok (w : WatchRequest) : result wdd := Ok [(w_folder w, 1)].

(** ** Notions for the statements about [run] *)

(** Every section whose own set-up succeeds has its notifier started. *)
Definition starts_the_sound_sections
  (F : InotifyFlags) (ExcludeFilter : list string -> result unit)
  (add_watch : WatchRequest -> result wdd) (config : Config) : Prop :=
  forall section dn,
    In section (sections config) ->
    outcome (setup_section F ExcludeFilter add_watch config section) = Ok dn ->
    In (snd dn) (started (trace (run F ExcludeFilter add_watch config))).



(** ** Notions for further properties of the mask resolver *)

(** The token is one the resolver acts on. *)
Definition known_token (F : InotifyFlags) (tok : string) : bool :=
  match token_value F (strip tok) with
  | Some _ => true
  | None => false
  end.

(** ** Notions for further properties of the command expander *)

(** How often a character occurs in a text. *)
Fixpoint count_char (c : ascii) (s : string) : nat :=
  match s with
  | EmptyString => O
  | String d s' => (if Ascii.eqb d c then 1 else 0) + count_char c s'
  end.

(** The value [run_command] quotes for a placeholder name. *)
Definition field_value (event : Event) (name : string) : option pyval :=
  if String.eqb name "watched" then Some (VStr (path event))
  else if String.eqb name "filename" then Some (VStr (pathname event))
  else if String.eqb name "tflags" then Some (VStr (maskname event))
  else if String.eqb name "nflags" then Some (VInt (mask event))
  else if String.eqb name "cookie" then
    Some (VInt (match cookie event with
                | Some c => c
                | None => 0
                end))
  else None.

(** A character that is special neither in a template nor for the shell:
    a letter, a digit, an underscore, a slash, a dot or a hyphen. *)
Definition is_plain (c : ascii) : bool :=
  is_id_char c || Ascii.eqb c "/" || Ascii.eqb c "." || Ascii.eqb c "-".

Fixpoint all_plain (s : string) : bool :=
  match s with
  | EmptyString => true
  | String c s' => is_plain c && all_plain s'
  end.

(** A template: a program name and braced placeholders, one blank before
    each. *)
Fixpoint placeholder_args (names : list string) : string :=
  match names with
  | [] => EmptyString
  | n :: names' => " " ++ placeholder n ++ placeholder_args names'
  end.

Definition cmdline (program : string) (names : list string) : string :=
  program ++ placeholder_args names.

(** The text of a value, when the name is a defined placeholder. *)
Definition field_text (event : Event) (name : string) : string :=
  match field_value event name with
  | Some v => str v
  | None => EmptyString
  end.

(** The rest of a template cannot continue an identifier. *)
Definition stops_identifier (rest : string) : bool :=
  match rest with
  | EmptyString => true
  | String c _ => negb (is_id_char c)
  end.

(** The rest of a template cannot follow a dollar. *)
Definition invalid_after_dollar (rest : string) : bool :=
  match rest with
  | EmptyString => true
  | String c _ => negb (Ascii.eqb c dollar || is_id_start c || Ascii.eqb c "{")
  end.

(** The quoted fields of an event, one blank before each. *)
Fixpoint quoted_args (event : Event) (names : list string) : string :=
  match names with
  | [] => EmptyString
  | n :: names' =>
      " " ++ match field_value event n with
             | Some v => shellquote v
             | None => EmptyString
             end ++ quoted_args event names'
  end.

(** ** Worlds and stand-ins for the examples of the [Daemon] class *)

(** A stand-in for [int] on the texts of the examples: decimal digits
    after an optional minus sign. *)
Definition int_decimal (s : string) : result Z :=
  match NilZero.int_of_string s with
  | Some d => Ok (Z.of_int d)
  | None => Raise (ValueError ("invalid literal for int() with base 10: '" ++ s ++ "'"))
  end.

(** A world in which the system refuses no call. *)
Definition quiet_world (fs : list (string * string)) (fk : list fork_result)
  (ks : list (option exn)) (pid : Z) : World := {|
  files := fs;
  forks := fk;
  kills := ks;
  this_pid := pid;
  refused := fun _ => None
|}.

(** The daemon of the examples. *)
Definition watcher_daemon : Daemon := {|
  stdin := "/dev/null";
  stdout := "/var/log/watcher.log";
  stderr := "/var/log/watcher.log";
  pidfile := "/var/run/watcher.pid"
|}.

(** A [run] method that only prints. *)
Definition run_stub : D unit := sys (PrintLine "running").

(** The calls of the kill loop when [os.kill] succeeds [k] times and then
    raises. *)
Fixpoint kill_calls (pid : Z) (k : nat) : list os_call :=
  match k with
  | O => [Kill pid]
  | S k' => Kill pid :: Sleep :: kill_calls pid k'
  end.

(** A text without whitespace. *)
Fixpoint no_space (s : string) : bool :=
  match s with
  | EmptyString => true
  | String c s' => negb (py_isspace c) && no_space s'
  end.

(** A configuration with a [DEFAULT] section beside the watch of the
    example, and a [config.read] that reads every name it is given. *)
Definition example_config : Config := {|
  sections := map fst watch_x_ini;
  get := fun section opt =>
           if String.eqb section "DEFAULT" then
             ini_get [("DEFAULT", [("logfile", "/var/log/watcher.log");
                                   ("pidfile", "/var/run/watcher.pid")])] section opt
           else ini_get watch_x_ini section opt;
  getboolean := ini_getboolean watch_x_ini
|}.


Definition read_no_name (names : list string) : list string * Config :=
  ([], example_config).

Definition home_of_root (name : string) : string := "/root/.watcher.ini".


(** * Properties *)

(** ** Whitespace stripping *)

Lemma lstrip_app_space (l s : string) :
  all_space l = true -> lstrip (l ++ s) = lstrip s.
Proof.
  induction l as [|c l IH]; simpl; intros H; [reflexivity|].
  apply andb_true_iff in H as [Hc Hl]. rewrite Hc. auto.
Qed.

Lemma rstrip_all_space (r : string) :
  all_space r = true -> rstrip r = EmptyString.
Proof.
  induction r as [|c r IH]; simpl; intros H; [reflexivity|].
  apply andb_true_iff in H as [Hc Hr]. rewrite (IH Hr), Hc. reflexivity.
Qed.

Lemma rstrip_app_space (s r : string) :
  all_space r = true -> rstrip (s ++ r) = rstrip s.
Proof.
  intros H. induction s as [|c s IH]; simpl.
  - apply rstrip_all_space, H.
  - rewrite IH. reflexivity.
Qed.

Lemma strip_app_space_l (l s : string) :
  all_space l = true -> strip (l ++ s) = strip s.
Proof.
  unfold strip. induction l as [|c l IH]; simpl; intros H; [reflexivity|].
  apply andb_true_iff in H as [Hc Hl]. specialize (IH Hl).
  destruct (rstrip (l ++ s)) as [|d r'] eqn:E.
  - rewrite Hc. rewrite <- IH. reflexivity.
  - simpl. rewrite Hc. exact IH.
Qed.

Lemma append_assoc (a b c : string) : (a ++ b) ++ c = a ++ (b ++ c).
Proof. induction a as [|x a IH]; simpl; [reflexivity | now rewrite IH]. Qed.

Lemma append_nil_r (a : string) : a ++ EmptyString = a.
Proof. induction a as [|x a IH]; simpl; [reflexivity | now rewrite IH]. Qed.

Lemma strip_padded (t p : string) : padded t p -> strip p = strip t.
Proof.
  intros (l & r & Hl & Hr & ->).
  rewrite strip_app_space_l by assumption.
  unfold strip. rewrite rstrip_app_space by assumption. reflexivity.
Qed.

(** ** Mask Resolver *)

Section MaskFacts.
Variable F : InotifyFlags.

Lemma add_mask_lor (n : Z) (cur : py_mask) :
  _add_mask n cur = PyInt (Z.lor (mask_value cur) n).
Proof.
  unfold _add_mask. destruct cur as [|z]; simpl; [reflexivity|].
  destruct (Z.eqb_spec z 0) as [->|]; reflexivity.
Qed.

Lemma all_mask_union :
  all_mask F =
  fold_right Z.lor 0
    [IN_ACCESS F; IN_ATTRIB F; IN_CLOSE_WRITE F; IN_CLOSE_NOWRITE F;
     IN_CREATE F; IN_DELETE F; IN_DELETE_SELF F; IN_MODIFY F;
     IN_MOVE_SELF F; IN_MOVED_FROM F; IN_MOVED_TO F; IN_OPEN F].
Proof.
  unfold all_mask. simpl. rewrite Z.lor_0_r.
  repeat rewrite <- Z.lor_assoc. reflexivity.
Qed.

(** The if/elif chain looks the stripped token up in the table. *)
Lemma parse_mask_step_table (ret : py_mask) (tok : string) :
  parse_mask_step F ret tok =
  match token_value F (strip tok) with
  | Some v => _add_mask v ret
  | None => ret
  end.
Proof.
  unfold parse_mask_step, token_value, spec_table.
  generalize (strip tok). intros m.
  repeat match goal with
         | |- context [String.eqb ?a m] =>
             destruct (String.eqb_spec a m);
             [ subst m; cbn [table_lookup String.eqb Ascii.eqb Bool.eqb];
               try rewrite all_mask_union; reflexivity | ]
         end.
  cbn [table_lookup].
  repeat match goal with
         | |- context [String.eqb ?a m] =>
             destruct (String.eqb_spec a m); [congruence|]
         end.
  reflexivity.
Qed.

Lemma fold_step_value (l : list string) (acc : py_mask) :
  mask_value (fold_left (parse_mask_step F) l acc)
  = Z.lor (mask_value acc) (or_of_tokens F (map strip l)).
Proof.
  revert acc. induction l as [|t l IH]; intros acc; simpl.
  - now rewrite Z.lor_0_r.
  - rewrite IH, parse_mask_step_table.
    destruct (token_value F (strip t)) as [v|]; [|reflexivity].
    rewrite add_mask_lor. simpl. now rewrite Z.lor_assoc.
Qed.

Lemma fold_step_int (l : list string) (z : Z) :
  exists z', fold_left (parse_mask_step F) l (PyInt z) = PyInt z'.
Proof.
  revert z. induction l as [|t l IH]; intros z; simpl; [eauto|].
  rewrite parse_mask_step_table.
  destruct (token_value F (strip t)); [rewrite add_mask_lor|]; apply IH.
Qed.

Lemma fold_step_false (l : list string) :
  fold_left (parse_mask_step F) l PyFalse = PyFalse
  <-> Forall (fun t => token_value F (strip t) = None) l.
Proof.
  induction l as [|t l IH]; simpl; [split; auto|].
  rewrite parse_mask_step_table.
  destruct (token_value F (strip t)) as [v|] eqn:E.
  - rewrite add_mask_lor. split.
    + intros H. destruct (fold_step_int l (Z.lor (mask_value PyFalse) v)) as [z' Hz].
      congruence.
    + intros H. inversion H; congruence.
  - rewrite IH. split; [auto | intros H; now inversion H].
Qed.

Lemma py_mask_ext (m m' : py_mask) :
  (m = PyFalse <-> m' = PyFalse) -> mask_value m = mask_value m' -> m = m'.
Proof.
  destruct m, m'; simpl; intros [H1 H2] Hv; try congruence.
  - discriminate H1; reflexivity.
  - discriminate H2; reflexivity.
Qed.

Lemma or_of_tokens_perm (l l' : list string) :
  Permutation l l' -> or_of_tokens F l = or_of_tokens F l'.
Proof.
  induction 1 as [|x l l' _ IH|x y l|l l' l'' _ IH1 _ IH2]; simpl.
  - reflexivity.
  - now rewrite IH.
  - destruct (token_value F x), (token_value F y); try reflexivity.
    rewrite !Z.lor_assoc. f_equal. apply Z.lor_comm.
  - congruence.
Qed.

(** The result does not depend on the order of the tokens, whatever
    the tokens are. *)
Lemma parse_mask_perm (l l' : list string) :
  Permutation l l' -> _parse_mask F l' = _parse_mask F l.
Proof.
  intros HP. unfold _parse_mask. apply py_mask_ext.
  - rewrite !fold_step_false. split; apply Permutation_Forall;
      [now apply Permutation_sym | assumption].
  - rewrite !fold_step_value. f_equal. apply or_of_tokens_perm.
    apply Permutation_map, Permutation_sym, HP.
Qed.

(** A token of the table has no whitespace around it. *)
Lemma recognized_strip (tok : string) : recognized F tok -> strip tok = tok.
Proof.
  unfold recognized, token_value, spec_table. cbn [table_lookup].
  repeat match goal with
         | |- context [String.eqb ?a tok] =>
             destruct (String.eqb_spec a tok); [subst tok; reflexivity|]
         end.
  congruence.
Qed.

Lemma map_strip_recognized (l : list string) :
  Forall (recognized F) l -> map strip l = l.
Proof.
  induction 1 as [|t l Ht _ IH]; simpl; [reflexivity|].
  now rewrite IH, recognized_strip.
Qed.
End MaskFacts.

(** C4. For a token list that holds recognised tokens only, the mask
    resolver returns the bitwise OR of the table values of the tokens (as
    an integer as soon as there is one token), the result is the same for
    every reordering of the list, and [move], [close] and [all] resolve to
    MOVED_FROM | MOVED_TO, CLOSE_WRITE | CLOSE_NOWRITE and the union of the
    twelve primitive kinds. *)
Theorem parse_mask_or_of_table (F : InotifyFlags) (tokens : list string) :
  Forall (recognized F) tokens ->
  mask_value (_parse_mask F tokens) = or_of_tokens F tokens
  /\ (tokens <> [] -> _parse_mask F tokens = PyInt (or_of_tokens F tokens))
  /\ (forall tokens', Permutation tokens tokens' ->
        _parse_mask F tokens' = _parse_mask F tokens)
  /\ _parse_mask F ["move"] = PyInt (Z.lor (IN_MOVED_FROM F) (IN_MOVED_TO F))
  /\ _parse_mask F ["close"] = PyInt (Z.lor (IN_CLOSE_WRITE F) (IN_CLOSE_NOWRITE F))
  /\ _parse_mask F ["all"] =
       PyInt (fold_right Z.lor 0
                [IN_ACCESS F; IN_ATTRIB F; IN_CLOSE_WRITE F; IN_CLOSE_NOWRITE F;
                 IN_CREATE F; IN_DELETE F; IN_DELETE_SELF F; IN_MODIFY F;
                 IN_MOVE_SELF F; IN_MOVED_FROM F; IN_MOVED_TO F; IN_OPEN F]).
Proof.
  intros Hrec.
  assert (Hval : mask_value (_parse_mask F tokens) = or_of_tokens F tokens).
  { unfold _parse_mask. rewrite fold_step_value. simpl.
    now rewrite (map_strip_recognized F tokens Hrec). }
  split; [exact Hval|]. split; [|split; [|split; [|split]]].
  - intros Hne. destruct (_parse_mask F tokens) as [|z] eqn:E.
    + exfalso. unfold _parse_mask in E. apply fold_step_false in E.
      destruct tokens as [|t l]; [congruence|].
      inversion E as [|? ? Ht _]; subst. inversion Hrec as [|? ? Hr _]; subst.
      rewrite (recognized_strip F t Hr) in Ht. exact (Hr Ht).
    + simpl in Hval. now rewrite Hval.
  - intros tokens' HP. now apply parse_mask_perm.
  - reflexivity.
  - reflexivity.
  - unfold _parse_mask. simpl. rewrite parse_mask_step_table. simpl.
    reflexivity.
Qed.

Lemma parse_mask_or_of_table_witness :
  Forall (recognized linux_flags) ["create"; "move"; "delete"; "create"]
  /\ mask_value (_parse_mask linux_flags ["create"; "move"; "delete"; "create"])
     = or_of_tokens linux_flags ["create"; "move"; "delete"; "create"].
Proof.
  assert (H : Forall (recognized linux_flags) ["create"; "move"; "delete"; "create"]).
  { repeat constructor; unfold recognized; vm_compute; discriminate. }
  split; [exact H|].
  exact (proj1 (parse_mask_or_of_table linux_flags _ H)).
Defined.

(** C5. A token list without any recognised token, the empty list
    included, resolves to the empty mask, the [False] the resolver starts
    from; the resolver is a total function, so an unrecognised token
    raises nothing. *)
Theorem parse_mask_nothing_recognized (F : InotifyFlags) (tokens : list string) :
  Forall (fun t => ~ recognized F (strip t)) tokens ->
  _parse_mask F tokens = PyFalse
  /\ mask_value (_parse_mask F tokens) = 0
  /\ _parse_mask F [] = PyFalse.
Proof.
  intros H.
  assert (E : _parse_mask F tokens = PyFalse).
  { unfold _parse_mask. apply fold_step_false.
    eapply Forall_impl; [|exact H]. intros t Ht. unfold recognized in Ht.
    destruct (token_value F (strip t)); [exfalso; apply Ht; discriminate | reflexivity]. }
  rewrite E. repeat split.
Qed.

Lemma parse_mask_nothing_recognized_witness :
  Forall (fun t => ~ recognized linux_flags (strip t)) ["bogus"; "Create"; " "]
  /\ _parse_mask linux_flags ["bogus"; "Create"; " "] = PyFalse.
Proof.
  assert (H : Forall (fun t => ~ recognized linux_flags (strip t)) ["bogus"; "Create"; " "]).
  { repeat constructor; unfold recognized; vm_compute; intros H; now apply H. }
  split; [exact H|].
  exact (proj1 (parse_mask_nothing_recognized linux_flags _ H)).
Defined.

(** C10. The resolver strips each token before it looks it up in the
    table: a token of the table with whitespace around it is acted on like
    the token itself, a list of padded tokens resolves to the OR of the
    table values of the bare tokens (the mask of the bare list), and the
    events strings [create, delete] and [create,delete], split at the
    commas, both resolve to CREATE | DELETE. *)
Theorem parse_mask_strips_tokens (F : InotifyFlags) (tokens padded_tokens : list string) :
  Forall2 padded tokens padded_tokens ->
  _parse_mask F padded_tokens = _parse_mask F tokens
  /\ mask_value (_parse_mask F padded_tokens) = or_of_tokens F (map strip tokens)
  /\ (Forall (recognized F) tokens -> tokens <> [] ->
      _parse_mask F padded_tokens = PyInt (or_of_tokens F tokens))
  /\ (forall ret t p v,
        padded t p -> token_value F t = Some v ->
        strip p = t /\ parse_mask_step F ret p = _add_mask v ret)
  /\ (forall ret t,
        parse_mask_step F ret t =
        match token_value F (strip t) with
        | Some v => _add_mask v ret
        | None => ret
        end)
  /\ _parse_mask F (split "," "create, delete")
     = PyInt (Z.lor (IN_CREATE F) (IN_DELETE F))
  /\ _parse_mask F (split "," "create,delete")
     = PyInt (Z.lor (IN_CREATE F) (IN_DELETE F)).
Proof.
  intros H.
  assert (Hsame : _parse_mask F padded_tokens = _parse_mask F tokens).
  { unfold _parse_mask. generalize PyFalse.
    induction H as [|t p l l' Hp _ IH]; intros acc; simpl; [reflexivity|].
    rewrite IH. f_equal.
    rewrite !parse_mask_step_table, (strip_padded t p Hp). reflexivity. }
  split; [exact Hsame|]. split; [|split; [|split; [|split; [|split]]]].
  - rewrite Hsame. unfold _parse_mask. rewrite fold_step_value. cbn [mask_value].
    apply Z.lor_0_l.
  - intros Hrec Hne. rewrite Hsame.
    assert (Hval : mask_value (_parse_mask F tokens) = or_of_tokens F tokens).
    { unfold _parse_mask. rewrite fold_step_value. cbn [mask_value].
      now rewrite Z.lor_0_l, (map_strip_recognized F tokens Hrec). }
    destruct (_parse_mask F tokens) as [|z] eqn:E; [|now cbn in Hval; subst].
    exfalso. unfold _parse_mask in E. apply fold_step_false in E.
    destruct tokens as [|t l]; [congruence|].
    inversion E as [|? ? Ht _]; subst. inversion Hrec as [|? ? Hr _]; subst.
    rewrite (recognized_strip F t Hr) in Ht. exact (Hr Ht).
  - intros ret t p v Hp Hv.
    assert (Hr : recognized F t) by (unfold recognized; congruence).
    assert (Hs : strip p = t)
      by (rewrite (strip_padded t p Hp); now apply recognized_strip with (F := F)).
    split; [exact Hs|]. now rewrite parse_mask_step_table, Hs, Hv.
  - intros ret t. apply parse_mask_step_table.
  - unfold _parse_mask. cbn [split Ascii.eqb Bool.eqb]. cbn [fold_left].
    rewrite !parse_mask_step_table. cbn. now rewrite add_mask_lor.
  - unfold _parse_mask. cbn [split Ascii.eqb Bool.eqb]. cbn [fold_left].
    rewrite !parse_mask_step_table. cbn. now rewrite add_mask_lor.
Qed.

Lemma parse_mask_strips_tokens_witness :
  Forall2 padded ["create"; "delete"] ["create"; " delete "]
  /\ _parse_mask linux_flags ["create"; " delete "] = PyInt 768.
Proof.
  assert (H : Forall2 padded ["create"; "delete"] ["create"; " delete "]).
  { constructor; [|constructor; [|constructor]].
    - exists EmptyString, EmptyString. repeat split.
    - exists " ", " ". repeat split. }
  split; [exact H|].
  refine (proj1 (proj2 (proj2 (parse_mask_strips_tokens linux_flags _ _ H))) _ _).
  - repeat constructor; unfold recognized; vm_compute; discriminate.
  - discriminate.
Defined.

(** ** Shell quoting *)

Lemma lex_single_quoted (s w rest : string) :
  sh_lex_from SingleQuoted (Some w)
    (replace squote "'\''" s ++ String squote rest)
  = sh_lex_from Unquoted (Some (w ++ s)) rest.
Proof.
  revert w. induction s as [|c s IH]; intros w.
  - simpl. now rewrite append_nil_r.
  - cbn [replace]. destruct (Ascii.eqb_spec c squote) as [->|Hc].
    + cbn. rewrite IH, append_assoc. reflexivity.
    + cbn [append sh_lex_from]. apply Ascii.eqb_neq in Hc. rewrite Hc.
      unfold push, word_so_far. rewrite IH, append_assoc. reflexivity.
Qed.

(** In front of any text, the quoted value adds exactly the value to the
    word being read and leaves the shell outside quotes. *)
Lemma lex_shellquote_app (v : pyval) (cur : option string) (rest : string) :
  sh_lex_from Unquoted cur (shellquote v ++ rest)
  = sh_lex_from Unquoted (Some (word_so_far cur ++ str v)) rest.
Proof.
  unfold shellquote. cbn [append sh_lex_from]. cbn.
  rewrite append_assoc. cbn [append]. apply lex_single_quoted.
Qed.

(** C1. The shell reads the quoted form of any value as exactly one word,
    the value itself; placed after any word in progress and before any
    text, the quoted form adds the value to that word and nothing else. *)
Theorem shellquote_round_trip (v : pyval) :
  sh_lex (shellquote v) = Lexed [TWord (str v)]
  /\ (forall cur rest,
        sh_lex_from Unquoted cur (shellquote v ++ rest)
        = sh_lex_from Unquoted (Some (word_so_far cur ++ str v)) rest).
Proof.
  split; [|intros; apply lex_shellquote_app].
  unfold sh_lex. rewrite <- (append_nil_r (shellquote v)).
  rewrite lex_shellquote_app. reflexivity.
Qed.

(** ** Template expansion *)

Lemma prepend_ok (a : string) (r : result string) (p : string) :
  prepend a r = Ok p -> exists q, r = Ok q /\ p = a ++ q.
Proof. destruct r; simpl; intros H; inversion H; eauto. Qed.

Lemma prepend_prepend (a b : string) (r : result string) :
  prepend a (prepend b r) = prepend (a ++ b) r.
Proof. destruct r; simpl; [now rewrite append_assoc | reflexivity]. Qed.

Lemma prepend_empty (r : result string) : prepend EmptyString r = r.
Proof. now destruct r. Qed.

Lemma id_char_not_brace (c : ascii) : is_id_char c = true -> Ascii.eqb c "}" = false.
Proof. destruct (Ascii.eqb_spec c "}") as [->|]; [discriminate | reflexivity]. Qed.

Lemma id_start_id_char (c : ascii) : is_id_start c = true -> is_id_char c = true.
Proof. unfold is_id_char. now intros ->. Qed.

(** A template that expands on its own expands the same way in front of a
    character that cannot continue an identifier. *)
Lemma substitute_from_app (kw : kwargs) (pre : string) :
  forall (st : tstate) (p : string) (c : ascii) (rest : string),
    substitute_from kw st pre = Ok p ->
    is_id_char c = false ->
    substitute_from kw st (pre ++ String c rest)
    = prepend p (substitute_from kw TNormal (String c rest)).
Proof.
  induction pre as [|d pre IH]; intros st p c rest Hp Hc.
  - destruct st; simpl in Hp; try discriminate.
    + inversion Hp; subst. now rewrite prepend_empty.
    + cbn [append substitute_from]. rewrite Hc, Hp. reflexivity.
  - cbn [append]. destruct st; cbn [substitute_from] in *.
    + destruct (Ascii.eqb d dollar); [now apply IH|].
      apply prepend_ok in Hp as (q & Hq & ->).
      rewrite (IH _ _ _ _ Hq Hc), prepend_prepend. reflexivity.
    + destruct (Ascii.eqb d dollar).
      { apply prepend_ok in Hp as (q & Hq & ->).
        rewrite (IH _ _ _ _ Hq Hc), prepend_prepend. reflexivity. }
      destruct (is_id_start d); [now apply IH|].
      destruct (Ascii.eqb d "{"); [now apply IH | discriminate].
    + destruct (is_id_char d); [now apply IH|].
      destruct (kw_lookup kw acc) as [v|e]; [|discriminate]. cbn [and_then] in *.
      apply prepend_ok in Hp as (q & Hq & ->).
      destruct (Ascii.eqb d dollar).
      * rewrite (IH _ _ _ _ Hq Hc), prepend_prepend. reflexivity.
      * apply prepend_ok in Hq as (q' & Hq' & ->).
        rewrite (IH _ _ _ _ Hq' Hc), !prepend_prepend, append_assoc. reflexivity.
    + destruct (Ascii.eqb d "}").
      { destruct acc as [|a acc]; [discriminate|].
        destruct (kw_lookup kw (String a acc)) as [v|e]; [|discriminate].
        cbn [and_then] in *.
        apply prepend_ok in Hp as (q & Hq & ->).
        rewrite (IH _ _ _ _ Hq Hc), prepend_prepend. reflexivity. }
      destruct (match acc with
                | EmptyString => is_id_start d
                | String _ _ => is_id_char d
                end); [now apply IH | discriminate].
Qed.

(** Inside braces, after a first character, identifier characters are
    collected up to the closing brace, and the name is then looked up. *)
Lemma substitute_braced (kw : kwargs) (name : string) :
  forall (a : ascii) (acc post : string),
    all_id_char name = true ->
    substitute_from kw (TBraced (String a acc)) (name ++ String "}" post)
    = and_then (kw_lookup kw (String a acc ++ name))
        (fun v => prepend v (substitute_from kw TNormal post)).
Proof.
  induction name as [|c name IH]; intros a acc post H.
  - cbn. now rewrite append_nil_r.
  - cbn [all_id_char] in H. apply andb_true_iff in H as [Hc Hn].
    cbn [append substitute_from]. rewrite (id_char_not_brace c Hc), Hc.
    change (String a acc ++ String c EmptyString)
      with (String a (acc ++ String c EmptyString)).
    rewrite IH by assumption. cbn [append]. rewrite append_assoc. reflexivity.
Qed.

(** A braced placeholder at the start of a template. *)
Lemma substitute_placeholder (kw : kwargs) (name post : string) :
  is_identifier name = true ->
  substitute_from kw TNormal (String dollar (String "{" (name ++ String "}" post)))
  = and_then (kw_lookup kw name)
      (fun v => prepend v (substitute_from kw TNormal post)).
Proof.
  destruct name as [|c name]; [discriminate|]. cbn [is_identifier].
  intros H. apply andb_true_iff in H as [Hc Hn].
  cbn [substitute_from append]. cbn [Ascii.eqb Bool.eqb dollar].
  cbn. rewrite Hc.
  assert (Hb : Ascii.eqb c "}" = false)
    by (apply id_char_not_brace, id_start_id_char, Hc).
  cbn in Hb. rewrite Hb.
  rewrite (substitute_braced kw name c EmptyString post Hn). reflexivity.
Qed.

Lemma placeholder_app (name post : string) :
  placeholder name ++ post = String dollar (String "{" (name ++ String "}" post)).
Proof. unfold placeholder. cbn [append]. now rewrite append_assoc. Qed.

(** A template made of a part that expands, a braced placeholder and a
    rest. *)
Lemma substitute_around_placeholder (kw : kwargs) (pre name post p : string) :
  substitute pre kw = Ok p ->
  is_identifier name = true ->
  substitute (pre ++ placeholder name ++ post) kw
  = prepend p (and_then (kw_lookup kw name)
                 (fun v => prepend v (substitute post kw))).
Proof.
  unfold substitute. intros Hp Hn. rewrite placeholder_app.
  rewrite (substitute_from_app kw pre TNormal p dollar _ Hp eq_refl).
  now rewrite substitute_placeholder.
Qed.

(** ** Command Expander and handler *)

Section HandlerFacts.
Variable os_system : string -> result Z.

Lemma run_command_expand_raises (self : EventHandler) (event : Event) (e : exn) :
  expand self event = Raise e ->
  run_command os_system self event = ([], Raise e).
Proof. unfold run_command, lift, bind. now intros ->. Qed.

Lemma run_command_launched (self : EventHandler) (event : Event) (cmd : string) (st : Z) :
  expand self event = Ok cmd ->
  os_system cmd = Ok st ->
  run_command os_system self event = ([System cmd], Ok tt).
Proof.
  unfold run_command, lift, bind, call_system. intros -> H.
  now rewrite H.
Qed.

(** What [run_command] hands to [os.system]: the expanded command, once. *)
Lemma run_command_dispatched (self : EventHandler) (event : Event) :
  dispatched (trace (run_command os_system self event))
  = match expand self event with
    | Ok cmd => [cmd]
    | Raise _ => []
    end.
Proof.
  unfold run_command, lift, bind, call_system.
  destruct (expand self event) as [cmd|e]; [|reflexivity].
  destruct (os_system cmd) as [st|[]]; reflexivity.
Qed.

(** A handler method prints its line, then runs the command. *)
Lemma method_trace (label : string) (self : EventHandler) (event : Event) :
  (print2 label (pathname event) ;;; run_command os_system self event)
  = (Print (label ++ " " ++ pathname event)
       :: trace (run_command os_system self event),
     outcome (run_command os_system self event)).
Proof.
  unfold print2, emit, bind, trace, outcome.
  now destruct (run_command os_system self event) as [t r].
Qed.

Lemma handler_methods_spec (self : EventHandler) (event : Event) :
  Forall2
    (fun method label =>
       method self event
       = (Print (label ++ " " ++ pathname event)
            :: trace (run_command os_system self event),
          outcome (run_command os_system self event)))
    (handler_methods os_system) method_labels.
Proof.
  unfold handler_methods, method_labels.
  repeat (constructor; [apply method_trace|]). constructor.
Qed.
End HandlerFacts.

Lemma kw_get_undefined (event : Event) (name : string) :
  ~ In name defined_placeholders ->
  kw_get (command_kwargs event) name = None.
Proof.
  unfold defined_placeholders, command_kwargs. cbn [kw_get In]. intros H.
  repeat match goal with
         | |- context [String.eqb ?a name] =>
             destruct (String.eqb_spec a name); [exfalso; apply H; tauto|]
         end.
  reflexivity.
Qed.

Lemma kw_lookup_cookie (event : Event) :
  cookie event = None ->
  kw_lookup (command_kwargs event) "cookie" = Ok (shellquote (VInt 0)).
Proof. unfold kw_lookup, command_kwargs. cbn [kw_get]. now intros ->. Qed.

(** C6. For an event without a cookie, the placeholder of the cookie is
    replaced by the quoted form of the integer 0, the three characters
    ['0'], which the shell reads as the word 0: neither an empty text nor
    an exception. *)
Theorem cookie_defaults_to_zero
  (self : EventHandler) (event : Event) (pre post p q : string) :
  cookie event = None ->
  command self = pre ++ placeholder "cookie" ++ post ->
  substitute pre (command_kwargs event) = Ok p ->
  substitute post (command_kwargs event) = Ok q ->
  expand self event = Ok (p ++ "'0'" ++ q)
  /\ kw_get (command_kwargs event) "cookie" = Some (shellquote (VInt 0))
  /\ shellquote (VInt 0) = "'0'"
  /\ sh_lex "'0'" = Lexed [TWord "0"].
Proof.
  intros Hc Hcmd Hp Hq. split; [|split; [|split]]; try reflexivity.
  - unfold expand. rewrite Hcmd.
    rewrite (substitute_around_placeholder _ pre "cookie" post p Hp eq_refl).
    rewrite (kw_lookup_cookie event Hc), Hq. reflexivity.
  - unfold command_kwargs. cbn [kw_get]. now rewrite Hc.
Qed.

Lemma cookie_defaults_to_zero_witness :
  expand {| command := "mv ${cookie} ${filename}" |}
         (created linux_flags "/tmp/x" "a.txt")
  = Ok "mv '0' '/tmp/x/a.txt'".
Proof.
  exact (proj1 (cookie_defaults_to_zero
                  {| command := "mv ${cookie} ${filename}" |}
                  (created linux_flags "/tmp/x" "a.txt")
                  "mv " " ${filename}" "mv " " '/tmp/x/a.txt'"
                  eq_refl eq_refl eq_refl eq_refl)).
Defined.

(** C3 as the specification words it fails: with the template
    [echo ${file}] the expansion raises [KeyError] and [run_command] lets
    it through, uncaught and unlogged. *)
Lemma unknown_placeholder_counterexample :
  run_command system_ok {| command := "echo ${file}" |}
    (created linux_flags "/tmp/x" "a.txt")
  = ([], Raise (KeyError "file"))
  /\ ~ caught_and_logged
         (run_command system_ok {| command := "echo ${file}" |}
            (created linux_flags "/tmp/x" "a.txt")).
Proof.
  split; [reflexivity|]. intros [H _]. discriminate H.
Qed.

(** C3, amended. When the template names a placeholder outside the
    defined set, after a part that expands, [substitute] raises [KeyError]
    for that name and [run_command] does not catch it: nothing is printed,
    no command is run, whatever the caller would do next is not done, and
    every handler method ends with that exception after its own line. *)
Theorem unknown_placeholder_raises
  (os_system : string -> result Z) (self : EventHandler) (event : Event)
  (pre name post p : string) :
  command self = pre ++ placeholder name ++ post ->
  substitute pre (command_kwargs event) = Ok p ->
  is_identifier name = true ->
  ~ In name defined_placeholders ->
  run_command os_system self event = ([], Raise (KeyError name))
  /\ (forall (A : Type) (k : unit -> M A),
        bind (run_command os_system self event) k = ([], Raise (KeyError name)))
  /\ Forall2
       (fun method label =>
          method self event
          = ([Print (label ++ " " ++ pathname event)], Raise (KeyError name)))
       (handler_methods os_system) method_labels.
Proof.
  intros Hcmd Hp Hid Hname.
  assert (E : expand self event = Raise (KeyError name)).
  { unfold expand. rewrite Hcmd.
    rewrite (substitute_around_placeholder _ pre name post p Hp Hid).
    unfold kw_lookup. rewrite (kw_get_undefined event name Hname). reflexivity. }
  assert (R : run_command os_system self event = ([], Raise (KeyError name)))
    by now apply run_command_expand_raises.
  split; [exact R|]. split.
  - intros A k. now rewrite R.
  - eapply Forall2_impl; [|apply handler_methods_spec].
    intros method label ->. now rewrite R.
Qed.

Lemma unknown_placeholder_raises_witness :
  run_command system_ok {| command := "cp ${filename} ${target}" |}
    (created linux_flags "/tmp/x" "a.txt")
  = ([], Raise (KeyError "target")).
Proof.
  refine (proj1 (unknown_placeholder_raises system_ok
                   {| command := "cp ${filename} ${target}" |}
                   (created linux_flags "/tmp/x" "a.txt")
                   "cp ${filename} " "target" EmptyString "cp '/tmp/x/a.txt' "
                   eq_refl eq_refl eq_refl _)).
  cbn. intros H. repeat destruct H as [H|H]; try discriminate H. exact H.
Defined.

(** C7, on the code. [os.system] tells that the command could not be
    launched by the status it returns; [run_command] does not look at the
    status, so it prints nothing then: its [except OSError] is not
    reached.  The caller goes on as after any other event. *)
Theorem launch_failure_is_not_logged
  (os_system : string -> result Z) (self : EventHandler) (event : Event)
  (cmd : string) (status : Z) :
  expand self event = Ok cmd ->
  os_system cmd = Ok status ->
  run_command os_system self event = ([System cmd], Ok tt)
  /\ printed (trace (run_command os_system self event)) = []
  /\ ~ caught_and_logged (run_command os_system self event).
Proof.
  intros He Hs.
  pose proof (run_command_launched os_system self event cmd status He Hs) as R.
  rewrite R. split; [reflexivity|]. split; [reflexivity|].
  intros [_ H]. now apply H.
Qed.

Lemma launch_failure_is_not_logged_witness :
  run_command system_not_found {| command := "/no/such/program ${filename}" |}
    (created linux_flags "/tmp/x" "a.txt")
  = ([System "/no/such/program '/tmp/x/a.txt'"], Ok tt).
Proof.
  exact (proj1 (launch_failure_is_not_logged system_not_found
                  {| command := "/no/such/program ${filename}" |}
                  (created linux_flags "/tmp/x" "a.txt")
                  "/no/such/program '/tmp/x/a.txt'" 32512 eq_refl eq_refl)).
Defined.




(** C9, on the code. For the watch specification of the example, [run]
    starts a notifier with the template [echo ${filename}]; for the create
    event of /tmp/x/a.txt the notifier looks for [process_IN_CREATE], the
    class only has [process_in_create], and the event ends in
    [process_default]: no command is dispatched.  The method that the
    docstring says is called on a create event would dispatch
    [echo '/tmp/x/a.txt']. *)
Theorem create_event_is_not_dispatched
  (F : InotifyFlags) (ExcludeFilter : list string -> result unit)
  (os_system : string -> result Z) (d : wdd) :
  run F ExcludeFilter (fun _ => Ok d) (config_of_ini watch_x_ini)
  = ([Log "Daemon started"; Log "x: /tmp/x"; AddWatch (watch_x_request F None);
      Start {| n_watch := watch_x_request F None; n_handler := echo_handler |}],
     Ok tt)
  /\ getattr (EventHandler_attributes os_system) "process_IN_CREATE" = None
  /\ notifier_call os_system "IN_CREATE" echo_handler (created F "/tmp/x" "a.txt")
     = ([], Ok tt)
  /\ dispatched
       (trace (notifier_call os_system "IN_CREATE" echo_handler
                 (created F "/tmp/x" "a.txt")))
     = []
  /\ expand echo_handler (created F "/tmp/x" "a.txt") = Ok "echo '/tmp/x/a.txt'"
  /\ dispatched
       (trace (process_in_create os_system echo_handler (created F "/tmp/x" "a.txt")))
     = ["echo '/tmp/x/a.txt'"].
Proof.
  split; [|split; [|split; [|split; [|split]]]].
  - assert (Hm : _parse_mask F (split "," "create,delete")
                 = PyInt (Z.lor (IN_CREATE F) (IN_DELETE F))).
    { unfold _parse_mask. cbn [split Ascii.eqb Bool.eqb]. cbn [fold_left].
      rewrite !parse_mask_step_table. cbn. now rewrite add_mask_lor. }
    unfold run, setup_all, setup_section.
    cbv -[_parse_mask split Z.lor]. now rewrite Hm.
  - reflexivity.
  - reflexivity.
  - reflexivity.
  - reflexivity.
  - unfold process_in_create. rewrite method_trace. cbn [trace fst dispatched].
    now rewrite run_command_dispatched.
Qed.

(** ** Start-up *)

Lemma bind_ok {A B : Type} (m : M A) (k : A -> M B) (a : A) :
  outcome m = Ok a ->
  bind m k = ((trace m ++ trace (k a))%list, outcome (k a)).
Proof.
  destruct m as [t r]. unfold outcome, trace. simpl. intros ->.
  now destruct (k a).
Qed.

Lemma bind_raise {A B : Type} (m : M A) (k : A -> M B) (e : exn) :
  outcome m = Raise e -> bind m k = (trace m, Raise e).
Proof. destruct m as [t r]. unfold outcome, trace. simpl. now intros ->. Qed.

Lemma started_app (t t' : list effect) :
  started (t ++ t') = (started t ++ started t')%list.
Proof.
  induction t as [|x t IH]; [reflexivity|].
  destruct x; simpl; now rewrite IH.
Qed.

Lemma started_bind {A B : Type} (m : M A) (k : A -> M B) :
  started (trace m) = [] ->
  (forall a, started (trace (k a)) = []) ->
  started (trace (bind m k)) = [].
Proof.
  intros Hm Hk. destruct (outcome m) as [a|e] eqn:E.
  - rewrite (bind_ok m k a E). unfold trace at 1. cbn [fst].
    now rewrite started_app, Hm, Hk.
  - now rewrite (bind_raise m k e E).
Qed.

Section DaemonFacts.
Variable F : InotifyFlags.
Variable ExcludeFilter : list string -> result unit.
Variable add_watch : WatchRequest -> result wdd.
Variable config : Config.

Local Abbreviation setup := (setup_section F ExcludeFilter add_watch config).

(** Setting a section up starts nothing: the notifiers are started by the
    second loop. *)
Lemma setup_section_starts_nothing (section : string) :
  started (trace (setup section)) = [].
Proof.
  unfold setup, setup_section.
  repeat (apply started_bind; [try reflexivity | intros]); try reflexivity.
  unfold make_exclude_filter.
  match goal with
  | |- context [String.eqb (strip ?x) EmptyString] =>
      destruct (String.eqb (strip x) EmptyString); [reflexivity|]
  end.
  apply started_bind; [reflexivity | intros; reflexivity].
Qed.

(** The first loop up to a section whose set-up raises. *)
Lemma setup_all_raises (pre : list string) (s : string) (post : list string) (e : exn) :
  forall (wdds : list wdd) (notifiers : list Notifier),
    Forall (fun p => exists dn, outcome (setup p) = Ok dn) pre ->
    outcome (setup s) = Raise e ->
    setup_all F ExcludeFilter add_watch config (pre ++ s :: post) wdds notifiers
    = ((List.concat (map (fun p => trace (setup p)) pre) ++ trace (setup s))%list,
       Raise e).
Proof.
  induction pre as [|p pre IH]; intros wdds notifiers Hpre Hs.
  - cbn [app setup_all map List.concat]. fold (setup s). now apply bind_raise.
  - inversion Hpre as [|? ? [dn Hdn] Hrest]; subst.
    cbn [app setup_all map List.concat]. fold (setup p).
    rewrite (bind_ok _ _ dn Hdn), (IH _ _ Hrest Hs).
    unfold trace at 2, outcome. cbn [fst snd]. now rewrite app_assoc.
Qed.
End DaemonFacts.

Lemma started_setup_traces
  (F : InotifyFlags) (ExcludeFilter : list string -> result unit)
  (add_watch : WatchRequest -> result wdd) (config : Config) (secs : list string) :
  started
    (List.concat
       (map (fun p => trace (setup_section F ExcludeFilter add_watch config p)) secs))
  = [].
Proof.
  induction secs as [|p secs IH]; [reflexivity|].
  cbn [map List.concat]. now rewrite started_app, setup_section_starts_nothing, IH.
Qed.

(** C2 as the specification words it fails: of two sections, the first
    is sound and the second lacks its [events] option; [run] ends with the
    exception of the second and starts no notifier, not even the one of
    the first. *)
Lemma setup_failure_counterexample :
  run linux_flags compile_ok add_watch_ok (config_of_ini two_jobs_ini)
  = ([Log "Daemon started"; Log "a: /tmp/a";
      AddWatch {| w_folder := "/tmp/a"; w_mask := PyInt 256; w_rec := false;
                  w_auto_add := false; w_exclude_filter := None |};
      Log "b: /tmp/b"],
     Raise (NoOptionError "events" "b"))
  /\ ~ starts_the_sound_sections linux_flags compile_ok add_watch_ok
         (config_of_ini two_jobs_ini).
Proof.
  split; [reflexivity|]. intros H.
  refine (H "a" _ (or_introl eq_refl) eq_refl).
Qed.

(** C2, amended. An exception raised while one section is set up, after
    sections that were set up without one, leaves [run]: [run] logs
    nothing about it, does not set the later sections up and starts no
    notifier, the ones of the earlier sections included. *)
Theorem setup_failure_aborts_run
  (F : InotifyFlags) (ExcludeFilter : list string -> result unit)
  (add_watch : WatchRequest -> result wdd) (config : Config)
  (pre : list string) (s : string) (post : list string) (e : exn) :
  sections config = (pre ++ s :: post)%list ->
  Forall (fun p => exists dn,
            outcome (setup_section F ExcludeFilter add_watch config p) = Ok dn) pre ->
  outcome (setup_section F ExcludeFilter add_watch config s) = Raise e ->
  outcome (run F ExcludeFilter add_watch config) = Raise e
  /\ trace (run F ExcludeFilter add_watch config)
     = Log "Daemon started"
       :: (List.concat
             (map (fun p => trace (setup_section F ExcludeFilter add_watch config p)) pre)
           ++ trace (setup_section F ExcludeFilter add_watch config s))%list
  /\ started (trace (run F ExcludeFilter add_watch config)) = [].
Proof.
  intros Hsec Hpre Hs.
  assert (R : run F ExcludeFilter add_watch config
              = (Log "Daemon started"
                   :: (List.concat
                         (map (fun p => trace (setup_section F ExcludeFilter add_watch config p)) pre)
                       ++ trace (setup_section F ExcludeFilter add_watch config s))%list,
                 Raise e)).
  { unfold run. rewrite Hsec.
    rewrite (setup_all_raises F ExcludeFilter add_watch config pre s post e [] [] Hpre Hs).
    reflexivity. }
  rewrite R. split; [reflexivity|]. split; [reflexivity|].
  unfold trace at 1. cbn [fst started].
  now rewrite started_app, started_setup_traces, setup_section_starts_nothing.
Qed.

Lemma setup_failure_aborts_run_witness :
  outcome (run linux_flags compile_ok add_watch_ok (config_of_ini two_jobs_ini))
  = Raise (NoOptionError "events" "b")
  /\ started (trace (run linux_flags compile_ok add_watch_ok (config_of_ini two_jobs_ini)))
     = [].
Proof.
  pose proof (setup_failure_aborts_run linux_flags compile_ok add_watch_ok
                (config_of_ini two_jobs_ini) ["a"] "b" []
                (NoOptionError "events" "b") eq_refl) as H.
  assert (Hpre : Forall (fun p => exists dn,
                   outcome (setup_section linux_flags compile_ok add_watch_ok
                              (config_of_ini two_jobs_ini) p) = Ok dn) ["a"]).
  { constructor; [|constructor]. eexists. reflexivity. }
  destruct (H Hpre eq_refl) as (H1 & _ & H3). split; assumption.
Defined.



(** * Further properties *)

(** ** Mask Resolver: how masks compose *)

(** X1. Adding options to a mask is a bitwise OR on its value, whether the
    mask is still [False], is the integer 0 or holds bits: the order of
    two additions does not matter and adding an option twice changes
    nothing. *)
Theorem add_mask_commutes_and_absorbs (a b : Z) (cur : py_mask) :
  mask_value (_add_mask a cur) = Z.lor (mask_value cur) a
  /\ _add_mask a (_add_mask b cur) = _add_mask b (_add_mask a cur)
  /\ _add_mask a (_add_mask a cur) = _add_mask a cur.
Proof.
  rewrite !add_mask_lor. cbn [mask_value]. split; [reflexivity|]. split; f_equal.
  - rewrite <- !Z.lor_assoc. f_equal. apply Z.lor_comm.
  - rewrite <- Z.lor_assoc. now rewrite Z.lor_diag.
Qed.

Lemma or_of_tokens_app (F : InotifyFlags) (l1 l2 : list string) :
  or_of_tokens F (l1 ++ l2) = Z.lor (or_of_tokens F l1) (or_of_tokens F l2).
Proof.
  induction l1 as [|t l1 IH]; simpl; [reflexivity|].
  destruct (token_value F t); rewrite IH; [now rewrite Z.lor_assoc | reflexivity].
Qed.

(** X2. The mask of two token lists put one after the other is the OR of
    their masks, and it is [False] only when both are. *)
Theorem parse_mask_app (F : InotifyFlags) (l1 l2 : list string) :
  mask_value (_parse_mask F (l1 ++ l2))
  = Z.lor (mask_value (_parse_mask F l1)) (mask_value (_parse_mask F l2))
  /\ (_parse_mask F (l1 ++ l2) = PyFalse
      <-> _parse_mask F l1 = PyFalse /\ _parse_mask F l2 = PyFalse).
Proof.
  unfold _parse_mask. split.
  - rewrite !fold_step_value. cbn [mask_value]. rewrite !Z.lor_0_l.
    now rewrite map_app, or_of_tokens_app.
  - rewrite !fold_step_false. apply Forall_app.
Qed.

Lemma or_of_tokens_absorbs_member (F : InotifyFlags) (t : string) (v : Z) (l : list string) :
  In t l -> token_value F t = Some v ->
  Z.lor v (or_of_tokens F l) = or_of_tokens F l.
Proof.
  intros Hin Hv. induction l as [|u l IH]; [contradiction|].
  cbn [or_of_tokens]. destruct Hin as [->|Hin].
  - rewrite Hv. now rewrite Z.lor_assoc, Z.lor_diag.
  - specialize (IH Hin). destruct (token_value F u) as [w|]; [|exact IH].
    rewrite Z.lor_assoc, (Z.lor_comm v w), <- Z.lor_assoc. now rewrite IH.
Qed.

(** X3. A token that is already in the list can be given once more
    without any change of the mask. *)
Theorem parse_mask_repeated_token (F : InotifyFlags) (t : string) (l : list string) :
  In t l -> _parse_mask F (t :: l) = _parse_mask F l.
Proof.
  intros Hin. unfold _parse_mask. apply py_mask_ext.
  - rewrite !fold_step_false. split.
    + intros H. now inversion H.
    + intros H. constructor; [|exact H].
      rewrite Forall_forall in H. now apply H.
  - rewrite !fold_step_value. f_equal. cbn [map or_of_tokens].
    destruct (token_value F (strip t)) as [v|] eqn:E; [|reflexivity].
    apply or_of_tokens_absorbs_member with (t := strip t); [|exact E].
    now apply in_map.
Qed.

Lemma parse_mask_repeated_token_witness :
  _parse_mask linux_flags ["create"; "delete"; "create"]
  = _parse_mask linux_flags ["delete"; "create"].
Proof.
  apply (parse_mask_repeated_token linux_flags "create" ["delete"; "create"]).
  right. left. reflexivity.
Defined.

(** X4. The resolver returns [False] exactly when no token of the list is
    recognised; one recognised token makes the result an integer. *)
Theorem parse_mask_false_iff (F : InotifyFlags) (l : list string) :
  _parse_mask F l = PyFalse <-> Forall (fun t => known_token F t = false) l.
Proof.
  unfold _parse_mask. rewrite fold_step_false.
  split; intros H; eapply Forall_impl; try exact H; intros t; unfold known_token;
    destruct (token_value F (strip t)); congruence.
Qed.

Lemma all_mask_absorbs (F : InotifyFlags) (tok : string) (v : Z) :
  token_value F tok = Some v -> Z.lor v (all_mask F) = all_mask F.
Proof.
  unfold token_value, spec_table. cbn [table_lookup].
  repeat match goal with
         | |- context [String.eqb ?a tok] =>
             destruct (String.eqb_spec a tok);
             [ intros H; injection H as <-;
               unfold all_mask; cbn [fold_right];
               apply Z.bits_inj'; intros ? _;
               rewrite !Z.lor_spec, ?Z.testbit_0_l; btauto | ]
         end.
  discriminate.
Qed.

Lemma or_of_tokens_below_all (F : InotifyFlags) (l : list string) :
  Z.lor (or_of_tokens F l) (all_mask F) = all_mask F.
Proof.
  induction l as [|t l IH]; cbn [or_of_tokens]; [apply Z.lor_0_l|].
  destruct (token_value F t) as [v|] eqn:E; [|exact IH].
  rewrite <- Z.lor_assoc, IH. now apply all_mask_absorbs with (tok := t).
Qed.

(** X5. With the token [all] in the list, the mask is the union of the
    twelve kinds whatever the other tokens are. *)
Theorem parse_mask_all_absorbs (F : InotifyFlags) (l : list string) :
  In "all" (map strip l) -> _parse_mask F l = PyInt (all_mask F).
Proof.
  intros Hin.
  assert (Hv : mask_value (_parse_mask F l) = all_mask F).
  { unfold _parse_mask. rewrite fold_step_value. cbn [mask_value]. rewrite Z.lor_0_l.
    rewrite <- (or_of_tokens_below_all F (map strip l)).
    symmetry. rewrite Z.lor_comm.
    apply or_of_tokens_absorbs_member with (t := "all"); [exact Hin|].
    unfold token_value, spec_table. cbn. now rewrite all_mask_union. }
  destruct (_parse_mask F l) as [|z] eqn:E; [|now cbn in Hv; subst].
  exfalso. unfold _parse_mask in E. apply fold_step_false in E.
  rewrite Forall_forall in E. apply in_map_iff in Hin as (t & Ht & Hin).
  specialize (E t Hin). rewrite Ht in E. discriminate E.
Qed.

Lemma parse_mask_all_absorbs_witness :
  _parse_mask linux_flags ["bogus"; " all "; "create"] = PyInt 4095.
Proof.
  apply (parse_mask_all_absorbs linux_flags ["bogus"; " all "; "create"]).
  right. left. reflexivity.
Defined.

(** X6. Dropping the tokens the resolver does not recognise from a list
    does not change its mask: they are skipped, wherever they stand. *)
Theorem parse_mask_ignores_unknown (F : InotifyFlags) (l : list string) :
  _parse_mask F l = _parse_mask F (filter (known_token F) l).
Proof.
  unfold _parse_mask. apply py_mask_ext.
  - rewrite !fold_step_false. rewrite !Forall_forall. split.
    + intros H t Ht. apply filter_In in Ht as [Ht _]. now apply H.
    + intros H t Ht. destruct (token_value F (strip t)) eqn:E; [|reflexivity].
      assert (Hk : known_token F t = true) by (unfold known_token; now rewrite E).
      rewrite <- E. apply H. apply filter_In. now split.
  - rewrite !fold_step_value. f_equal.
    induction l as [|t l IH]; [reflexivity|]. cbn [filter map or_of_tokens].
    unfold known_token at 1.
    destruct (token_value F (strip t)) as [v|] eqn:E; cbn [map or_of_tokens];
      rewrite ?E, IH; reflexivity.
Qed.

(** ** Shell quoting: further properties *)

Lemma sh_lex_shellquote (v : pyval) : sh_lex (shellquote v) = Lexed [TWord (str v)].
Proof.
  unfold sh_lex. rewrite <- (append_nil_r (shellquote v)).
  rewrite lex_shellquote_app. reflexivity.
Qed.

(** X7. Quoting loses nothing: two values with the same quoted form have
    the same text. *)
Theorem shellquote_injective (v v' : pyval) :
  shellquote v = shellquote v' -> str v = str v'.
Proof.
  intros H. apply (f_equal sh_lex) in H.
  rewrite !sh_lex_shellquote in H. now inversion H.
Qed.

Lemma shellquote_injective_witness : str (VInt 0) = str (VStr "0").
Proof. exact (shellquote_injective (VInt 0) (VStr "0") eq_refl). Defined.

Lemma length_append (a b : string) :
  String.length (a ++ b) = (String.length a + String.length b)%nat.
Proof. induction a as [|c a IH]; simpl; [reflexivity | now rewrite IH]. Qed.

(** X8. The quoted form has two characters more than the text and three
    more for every single quote in it. *)
Theorem shellquote_length (v : pyval) :
  String.length (shellquote v)
  = (String.length (str v) + 2 + 3 * count_char squote (str v))%nat.
Proof.
  unfold shellquote.
  cbn [append String.length]. rewrite length_append. cbn [String.length].
  generalize (str v). intros s.
  induction s as [|d s IH]; cbn [replace count_char String.length]; [reflexivity|].
  destruct (Ascii.eqb d squote).
  - rewrite length_append. cbn [String.length]. lia.
  - cbn [String.length]. lia.
Qed.

(** ** Command Expander: further properties *)

Lemma kw_get_field (event : Event) (name : string) :
  kw_get (command_kwargs event) name = option_map shellquote (field_value event name).
Proof.
  unfold command_kwargs, field_value. cbn [kw_get].
  repeat match goal with
         | |- context [String.eqb ?a name] =>
             destruct (String.eqb_spec a name) as [<-|]; [reflexivity|]
         end.
  repeat match goal with
         | |- context [String.eqb name ?a] =>
             destruct (String.eqb_spec name a) as [->|]; [congruence|]
         end.
  reflexivity.
Qed.

Lemma field_value_identifier (event : Event) (name : string) (v : pyval) :
  field_value event name = Some v -> is_identifier name = true.
Proof.
  unfold field_value.
  repeat match goal with
         | |- context [String.eqb name ?a] =>
             destruct (String.eqb_spec name a) as [->|]; [reflexivity|]
         end.
  discriminate.
Qed.

(** X9. Each of the five placeholders, written with braces after a part
    of the template that expands and before one that expands, is replaced
    by the quoted form of its field of the event. *)
Theorem placeholder_is_quoted_field
  (self : EventHandler) (event : Event) (pre name post p q : string) (v : pyval) :
  command self = pre ++ placeholder name ++ post ->
  substitute pre (command_kwargs event) = Ok p ->
  substitute post (command_kwargs event) = Ok q ->
  field_value event name = Some v ->
  expand self event = Ok (p ++ shellquote v ++ q).
Proof.
  intros Hcmd Hp Hq Hv. unfold expand. rewrite Hcmd.
  rewrite (substitute_around_placeholder _ pre name post p Hp
             (field_value_identifier event name v Hv)).
  unfold kw_lookup. rewrite kw_get_field, Hv. cbn [option_map and_then].
  rewrite Hq. reflexivity.
Qed.

Lemma placeholder_is_quoted_field_witness :
  expand {| command := "log ${tflags} ${nflags}" |}
         (created linux_flags "/tmp/x" "it's")
  = Ok "log 'IN_CREATE' '256'".
Proof.
  exact (placeholder_is_quoted_field
           {| command := "log ${tflags} ${nflags}" |}
           (created linux_flags "/tmp/x" "it's")
           "log ${tflags} " "nflags" EmptyString "log 'IN_CREATE' " EmptyString
           (VInt 256) eq_refl eq_refl eq_refl eq_refl).
Defined.

Lemma substitute_plain_prefix (kw : kwargs) (w rest : string) :
  count_char dollar w = O ->
  substitute_from kw TNormal (w ++ rest)
  = prepend w (substitute_from kw TNormal rest).
Proof.
  induction w as [|c w IH]; cbn [append count_char]; intros H.
  - now rewrite prepend_empty.
  - cbn [substitute_from]. destruct (Ascii.eqb c dollar); [discriminate|].
    rewrite IH by exact H. now rewrite prepend_prepend.
Qed.

(** X10. A template without a dollar is the command of every event, as
    it stands: [run_command] hands it to [os.system] unchanged. *)
Theorem template_without_dollar_is_verbatim
  (os_system : string -> result Z) (self : EventHandler) (event : Event) :
  count_char dollar (command self) = O ->
  expand self event = Ok (command self)
  /\ dispatched (trace (run_command os_system self event)) = [command self].
Proof.
  intros H.
  assert (E : expand self event = Ok (command self)).
  { unfold expand, substitute. rewrite <- (append_nil_r (command self)) at 1.
    rewrite (substitute_plain_prefix _ _ _ H). cbn. now rewrite append_nil_r. }
  split; [exact E|]. now rewrite run_command_dispatched, E.
Qed.

Lemma template_without_dollar_is_verbatim_witness :
  expand {| command := "make -C /srv all" |} (created linux_flags "/tmp/x" "a.txt")
  = Ok "make -C /srv all".
Proof.
  exact (proj1 (template_without_dollar_is_verbatim system_ok
                  {| command := "make -C /srv all" |}
                  (created linux_flags "/tmp/x" "a.txt") eq_refl)).
Defined.

(** X11. Two dollars in the template give one dollar in the command. *)
Theorem doubled_dollar_is_one_dollar
  (self : EventHandler) (event : Event) (pre post p q : string) :
  command self = pre ++ String dollar (String dollar post) ->
  substitute pre (command_kwargs event) = Ok p ->
  substitute post (command_kwargs event) = Ok q ->
  expand self event = Ok (p ++ String dollar q).
Proof.
  intros Hcmd Hp Hq. unfold expand, substitute in *. rewrite Hcmd.
  rewrite (substitute_from_app _ pre TNormal p dollar _ Hp eq_refl).
  cbn. rewrite Hq. reflexivity.
Qed.

Lemma doubled_dollar_is_one_dollar_witness :
  expand {| command := "echo $$HOME ${filename}" |}
         (created linux_flags "/tmp/x" "a.txt")
  = Ok "echo $HOME '/tmp/x/a.txt'".
Proof.
  exact (doubled_dollar_is_one_dollar
           {| command := "echo $$HOME ${filename}" |}
           (created linux_flags "/tmp/x" "a.txt")
           "echo " "HOME ${filename}" "echo " "HOME '/tmp/x/a.txt'"
           eq_refl eq_refl eq_refl).
Defined.

(** X12. A dollar at the end of the template, or before a character that
    is neither a dollar, nor an opening brace, nor the start of an
    identifier, makes the expansion raise a [ValueError] whose message
    starts with [Invalid placeholder in string]: [run_command] lets it
    through and runs no command. *)
Theorem stray_dollar_raises
  (os_system : string -> result Z) (self : EventHandler) (event : Event)
  (pre rest p : string) :
  command self = pre ++ String dollar rest ->
  substitute pre (command_kwargs event) = Ok p ->
  invalid_after_dollar rest = true ->
  exists tail,
    run_command os_system self event
    = ([], Raise (ValueError ("Invalid placeholder in string" ++ tail))).
Proof.
  intros Hcmd Hp Hr. exists EmptyString. apply run_command_expand_raises.
  unfold expand, substitute in *. rewrite Hcmd.
  rewrite (substitute_from_app _ pre TNormal p dollar _ Hp eq_refl).
  destruct rest as [|c rest]; [reflexivity|].
  cbn [invalid_after_dollar] in Hr. apply negb_true_iff in Hr.
  apply orb_false_iff in Hr as [Hr Hb]. apply orb_false_iff in Hr as [Hd Hi].
  cbn. cbn in Hd, Hb. now rewrite Hd, Hi, Hb.
Qed.

Lemma stray_dollar_raises_witness :
  exists tail,
    run_command system_ok {| command := "echo ${filename} costs 5$ (net)" |}
      (created linux_flags "/tmp/x" "a.txt")
    = ([], Raise (ValueError ("Invalid placeholder in string" ++ tail))).
Proof.
  exact (stray_dollar_raises system_ok
           {| command := "echo ${filename} costs 5$ (net)" |}
           (created linux_flags "/tmp/x" "a.txt")
           "echo ${filename} costs 5" " (net)" "echo '/tmp/x/a.txt' costs 5"
           eq_refl eq_refl eq_refl).
Defined.

Lemma and_then_ok_nil (r : result string) :
  and_then r (fun v => prepend v (Ok EmptyString)) = r.
Proof. destruct r; cbn; [now rewrite append_nil_r | reflexivity]. Qed.

(** After a dollar and a first character, identifier characters are
    collected as far as they go, and the name is then looked up. *)
Lemma substitute_named (kw : kwargs) (name : string) :
  forall (acc rest : string),
    all_id_char name = true ->
    stops_identifier rest = true ->
    substitute_from kw (TNamed acc) (name ++ rest)
    = and_then (kw_lookup kw (acc ++ name))
        (fun v => prepend v (substitute_from kw TNormal rest)).
Proof.
  induction name as [|c name IH]; intros acc rest Hn Hr.
  - cbn [append]. rewrite append_nil_r. destruct rest as [|d rest].
    + cbn. now rewrite and_then_ok_nil.
    + cbn [stops_identifier] in Hr. apply negb_true_iff in Hr.
      cbn [substitute_from]. now rewrite Hr.
  - cbn [all_id_char] in Hn. apply andb_true_iff in Hn as [Hc Hn].
    cbn [append substitute_from]. rewrite Hc, IH by assumption.
    now rewrite append_assoc.
Qed.

(** X13. A placeholder written without braces, [$name], up to a character
    that cannot continue the name: a defined name is replaced by its quoted
    field, any other name (a shell variable such as [$HOME]) makes the
    expansion raise [KeyError]. *)
Theorem unbraced_placeholder
  (self : EventHandler) (event : Event) (pre name rest p : string) :
  command self = pre ++ String dollar (name ++ rest) ->
  substitute pre (command_kwargs event) = Ok p ->
  is_identifier name = true ->
  stops_identifier rest = true ->
  expand self event
  = match field_value event name with
    | Some v => prepend (p ++ shellquote v) (substitute rest (command_kwargs event))
    | None => Raise (KeyError name)
    end.
Proof.
  intros Hcmd Hp Hn Hr. unfold expand, substitute in *. rewrite Hcmd.
  rewrite (substitute_from_app _ pre TNormal p dollar _ Hp eq_refl).
  destruct name as [|c name]; [discriminate|].
  cbn [is_identifier] in Hn. apply andb_true_iff in Hn as [Hc Hn].
  cbn [append substitute_from]. cbn [Ascii.eqb Bool.eqb dollar].
  assert (Hd : Ascii.eqb c dollar = false).
  { destruct (Ascii.eqb_spec c dollar) as [->|]; [discriminate Hc | reflexivity]. }
  cbn in Hd. cbn. rewrite Hd, Hc.
  rewrite (substitute_named _ name (String c EmptyString) rest Hn Hr).
  cbn [append]. unfold kw_lookup. rewrite kw_get_field.
  destruct (field_value event (String c name)) as [v|]; cbn; [|reflexivity].
  now rewrite prepend_prepend.
Qed.

Lemma unbraced_placeholder_witness :
  expand {| command := "cp $filename $HOME/inbox" |}
         (created linux_flags "/tmp/x" "a.txt")
  = Raise (KeyError "HOME").
Proof.
  exact (unbraced_placeholder
           {| command := "cp $filename $HOME/inbox" |}
           (created linux_flags "/tmp/x" "a.txt")
           "cp $filename " "HOME" "/inbox" "cp '/tmp/x/a.txt' "
           eq_refl eq_refl eq_refl eq_refl).
Defined.

Lemma plain_char_step (c : ascii) (cur : option string) (s : string) :
  is_plain c = true ->
  sh_lex_from Unquoted cur (String c s) = sh_lex_from Unquoted (push cur c) s.
Proof.
  destruct c as [[] [] [] [] [] [] [] []]; intros H; try discriminate H; reflexivity.
Qed.

Lemma plain_char_not_dollar (c : ascii) :
  is_plain c = true -> Ascii.eqb c dollar = false.
Proof.
  destruct (Ascii.eqb_spec c dollar) as [->|]; [discriminate | reflexivity].
Qed.

Lemma plain_word_no_dollar (w : string) :
  all_plain w = true -> count_char dollar w = O.
Proof.
  induction w as [|c w IH]; cbn [all_plain count_char]; [reflexivity|].
  intros H. apply andb_true_iff in H as [Hc Hw].
  now rewrite (plain_char_not_dollar c Hc), IH.
Qed.

Lemma lex_plain_word (w : string) :
  forall (x rest : string),
    all_plain w = true ->
    sh_lex_from Unquoted (Some x) (w ++ rest)
    = sh_lex_from Unquoted (Some (x ++ w)) rest.
Proof.
  induction w as [|c w IH]; intros x rest H.
  - cbn [append]. now rewrite append_nil_r.
  - cbn [all_plain] in H. apply andb_true_iff in H as [Hc Hw].
    cbn [append]. rewrite plain_char_step by exact Hc.
    unfold push, word_so_far. rewrite IH by exact Hw. now rewrite append_assoc.
Qed.

Lemma substitute_placeholder_args (event : Event) (names : list string) :
  Forall (fun n => field_value event n <> None) names ->
  substitute_from (command_kwargs event) TNormal (placeholder_args names)
  = Ok (quoted_args event names).
Proof.
  induction 1 as [|n names Hn _ IH]; [reflexivity|].
  cbn [placeholder_args quoted_args]. rewrite placeholder_app.
  change (" " ++ ?s) with (String " " s).
  change (substitute_from ?kw TNormal (String " " ?s))
    with (prepend " " (substitute_from kw TNormal s)).
  destruct (field_value event n) as [v|] eqn:E; [|congruence].
  rewrite (substitute_placeholder _ n _ (field_value_identifier event n v E)).
  unfold kw_lookup. rewrite kw_get_field, E. cbn [option_map and_then].
  rewrite IH. reflexivity.
Qed.

Lemma lex_quoted_args (event : Event) (names : list string) :
  forall x : string,
    Forall (fun n => field_value event n <> None) names ->
    sh_lex_from Unquoted (Some x) (quoted_args event names)
    = Lexed (TWord x :: map (fun n => TWord (field_text event n)) names).
Proof.
  induction names as [|n names IH]; intros x H; [reflexivity|].
  inversion H as [|? ? Hn Hrest]; subst.
  cbn [quoted_args map]. unfold field_text at 1.
  destruct (field_value event n) as [v|]; [|congruence].
  change (" " ++ ?s) with (String " " s).
  cbn [sh_lex_from]. cbn [Ascii.eqb Bool.eqb squote dquote backslash is_blank orb].
  rewrite lex_shellquote_app. cbn [word_so_far append].
  rewrite (IH (str v) Hrest). reflexivity.
Qed.

(** X14. For a template made of a program name of plain characters and
    any sequence of defined placeholders, each after a blank, the command
    of an event is read by the shell as the program name followed by one
    word per placeholder, the text of the field itself: whatever characters
    the path has, it adds no word and no operator. *)
Theorem command_words
  (self : EventHandler) (event : Event) (program : string) (names : list string)
  (c : ascii) (w : string) :
  command self = cmdline program names ->
  program = String c w ->
  all_plain program = true ->
  Forall (fun n => field_value event n <> None) names ->
  expand self event = Ok (program ++ quoted_args event names)
  /\ sh_lex (program ++ quoted_args event names)
     = Lexed (TWord program :: map (fun n => TWord (field_text event n)) names).
Proof.
  intros Hcmd Hprog Hplain Hnames. split.
  - unfold expand, substitute, cmdline in *. rewrite Hcmd.
    rewrite substitute_plain_prefix by now apply plain_word_no_dollar.
    now rewrite substitute_placeholder_args.
  - unfold sh_lex. rewrite Hprog in *. cbn [all_plain] in Hplain.
    apply andb_true_iff in Hplain as [Hc Hw].
    cbn [append]. rewrite plain_char_step by exact Hc.
    unfold push, word_so_far. cbn [append].
    rewrite lex_plain_word by exact Hw. cbn [append].
    now apply lex_quoted_args.
Qed.

Lemma command_words_witness :
  sh_lex ("/usr/bin/rsync"
          ++ quoted_args (created linux_flags "/tmp/x" "a'; rm -rf ~; '.txt")
               ["filename"; "watched"])
  = Lexed [TWord "/usr/bin/rsync"; TWord "/tmp/x/a'; rm -rf ~; '.txt"; TWord "/tmp/x"].
Proof.
  refine (proj2 (command_words
                   {| command := "/usr/bin/rsync ${filename} ${watched}" |}
                   (created linux_flags "/tmp/x" "a'; rm -rf ~; '.txt")
                   "/usr/bin/rsync" ["filename"; "watched"]
                   "/" "usr/bin/rsync" eq_refl eq_refl eq_refl _)).
  repeat constructor; discriminate.
Defined.

(** X15. [run_command] catches [OSError] only: any other exception of
    [os.system] leaves it, and nothing is printed. *)
Theorem other_exception_propagates
  (os_system : string -> result Z) (self : EventHandler) (event : Event)
  (cmd : string) (e : exn) :
  expand self event = Ok cmd ->
  os_system cmd = Raise e ->
  (forall msg, e <> OSError msg) ->
  run_command os_system self event = ([System cmd], Raise e).
Proof.
  intros He Hs Hne. unfold run_command, lift, bind, call_system.
  rewrite He, Hs. destruct e; try reflexivity.
  exfalso. now apply (Hne msg).
Qed.

Lemma other_exception_propagates_witness :
  run_command (fun _ => Raise (ValueError "embedded null byte")) echo_handler
    (created linux_flags "/tmp/x" "a.txt")
  = ([System "echo '/tmp/x/a.txt'"], Raise (ValueError "embedded null byte")).
Proof.
  apply (other_exception_propagates
           (fun _ => Raise (ValueError "embedded null byte")) echo_handler
           (created linux_flags "/tmp/x" "a.txt")
           "echo '/tmp/x/a.txt'" (ValueError "embedded null byte") eq_refl eq_refl).
  intros msg H. discriminate H.
Defined.

(** ** Start-up: further properties *)

Lemma start_all_trace (notifiers : list Notifier) :
  start_all notifiers = (map Start notifiers, Ok tt).
Proof.
  induction notifiers as [|n ns IH]; [reflexivity|].
  cbn [start_all map]. unfold bind, emit. now rewrite IH.
Qed.

Lemma started_map_start (notifiers : list Notifier) :
  started (map Start notifiers) = notifiers.
Proof. induction notifiers as [|n ns IH]; cbn; [reflexivity | now rewrite IH]. Qed.

Lemma setup_all_succeeds
  (F : InotifyFlags) (ExcludeFilter : list string -> result unit)
  (add_watch : WatchRequest -> result wdd) (config : Config)
  (secs : list string) (dns : list (wdd * Notifier)) :
  Forall2 (fun p dn =>
             outcome (setup_section F ExcludeFilter add_watch config p) = Ok dn)
          secs dns ->
  forall (wdds : list wdd) (notifiers : list Notifier),
    setup_all F ExcludeFilter add_watch config secs wdds notifiers
    = (List.concat
         (map (fun p => trace (setup_section F ExcludeFilter add_watch config p)) secs),
       Ok ((wdds ++ map fst dns)%list, (notifiers ++ map snd dns)%list)).
Proof.
  induction 1 as [|p dn secs dns Hp _ IH]; intros wdds notifiers.
  - cbn. now rewrite !app_nil_r.
  - cbn [setup_all map List.concat]. rewrite (bind_ok _ _ dn Hp), IH.
    unfold trace at 2, outcome. cbn [fst snd]. now rewrite <- !app_assoc.
Qed.

(** X16. When every section is set up without an exception, [run] returns
    normally after it has asked for one watch per section and then started
    one notifier per section, in the order of the sections. *)
Theorem run_starts_every_section
  (F : InotifyFlags) (ExcludeFilter : list string -> result unit)
  (add_watch : WatchRequest -> result wdd) (config : Config)
  (dns : list (wdd * Notifier)) :
  Forall2 (fun p dn =>
             outcome (setup_section F ExcludeFilter add_watch config p) = Ok dn)
          (sections config) dns ->
  run F ExcludeFilter add_watch config
  = (Log "Daemon started"
       :: (List.concat
             (map (fun p => trace (setup_section F ExcludeFilter add_watch config p))
                  (sections config))
           ++ map Start (map snd dns))%list,
     Ok tt)
  /\ started (trace (run F ExcludeFilter add_watch config)) = map snd dns.
Proof.
  intros H.
  assert (R : run F ExcludeFilter add_watch config
              = (Log "Daemon started"
                   :: (List.concat
                         (map (fun p => trace (setup_section F ExcludeFilter add_watch config p))
                              (sections config))
                       ++ map Start (map snd dns))%list,
                 Ok tt)).
  { unfold run. rewrite (setup_all_succeeds F ExcludeFilter add_watch config _ dns H).
    cbn [app]. unfold log, emit, bind. cbn [snd]. now rewrite start_all_trace. }
  split; [exact R|]. rewrite R. unfold trace at 1. cbn [fst started].
  now rewrite started_app, started_setup_traces, started_map_start.
Qed.

Lemma run_starts_every_section_witness :
  started (trace (run linux_flags compile_ok add_watch_ok
                    (config_of_ini
                       [ watch_section "a" "/tmp/a" "create" EmptyString "echo a";
                         watch_section "b" "/tmp/b" "all" "^/tmp/b/skip" "echo b" ])))
  = [ {| n_watch := {| w_folder := "/tmp/a"; w_mask := PyInt 256; w_rec := false;
                       w_auto_add := false; w_exclude_filter := None |};
         n_handler := {| command := "echo a" |} |};
      {| n_watch := {| w_folder := "/tmp/b"; w_mask := PyInt 4095; w_rec := false;
                       w_auto_add := false;
                       w_exclude_filter := Some ["^/tmp/b/skip"] |};
         n_handler := {| command := "echo b" |} |} ].
Proof.
  refine (proj2 (run_starts_every_section linux_flags compile_ok add_watch_ok
                   (config_of_ini
                      [ watch_section "a" "/tmp/a" "create" EmptyString "echo a";
                        watch_section "b" "/tmp/b" "all" "^/tmp/b/skip" "echo b" ])
                   [ ([("/tmp/a", 1)], _); ([("/tmp/b", 1)], _) ] _)).
  repeat constructor.
Defined.

(** X17. When the exclusion patterns of a section do not compile, the
    exception leaves the set-up of the section before [add_watch] is
    called: the section is logged, and no watch is asked for. *)
Theorem bad_exclusion_pattern_raises
  (F : InotifyFlags) (ExcludeFilter : list string -> result unit)
  (add_watch : WatchRequest -> result wdd) (config : Config)
  (section watch events : string) (recursive autoadd : bool)
  (excluded command : string) (e : exn) :
  get config section "watch" = Ok watch ->
  get config section "events" = Ok events ->
  getboolean config section "recursive" = Ok recursive ->
  getboolean config section "autoadd" = Ok autoadd ->
  get config section "excluded" = Ok excluded ->
  get config section "command" = Ok command ->
  strip excluded <> EmptyString ->
  ExcludeFilter (split "," excluded) = Raise e ->
  setup_section F ExcludeFilter add_watch config section
  = ([Log (section ++ ": " ++ watch)], Raise e).
Proof.
  intros Hw He Hr Ha Hx Hc Hb Hf.
  unfold setup_section, make_exclude_filter.
  rewrite Hw, He, Hr, Ha, Hx, Hc.
  cbn -[_parse_mask split append strip String.eqb].
  destruct (String.eqb_spec (strip excluded) EmptyString) as [Hb'|_]; [contradiction|].
  rewrite Hf. reflexivity.
Qed.

Lemma bad_exclusion_pattern_raises_witness :
  setup_section linux_flags (fun _ => Raise (OtherError "nothing to repeat"))
    add_watch_ok
    (config_of_ini [ watch_section "x" "/tmp/x" "create" "*.tmp" "echo x" ]) "x"
  = ([Log "x: /tmp/x"], Raise (OtherError "nothing to repeat")).
Proof.
  apply (bad_exclusion_pattern_raises linux_flags
           (fun _ => Raise (OtherError "nothing to repeat")) add_watch_ok
           (config_of_ini [ watch_section "x" "/tmp/x" "create" "*.tmp" "echo x" ])
           "x" "/tmp/x" "create" false false "*.tmp" "echo x"
           (OtherError "nothing to repeat") eq_refl eq_refl eq_refl eq_refl eq_refl eq_refl).
  - discriminate.
  - reflexivity.
Defined.

(** ** The [Daemon] class *)

Lemma dbind_done {A B : Type} (m : D A) (k : A -> D B)
  (w : World) (t : list os_call) (w' : World) (a : A) :
  m w = (t, w', Done a) ->
  dbind m k w = let '(t', w'', r) := k a w' in ((t ++ t')%list, w'', r).
Proof. unfold dbind. now intros ->. Qed.

Lemma dbind_dret {A B : Type} (a : A) (k : A -> D B) (w : World) :
  dbind (dret a) k w = k a w.
Proof. unfold dbind, dret. now destruct (k a w) as [[t w'] r]. Qed.

Lemma dbind_stops {A B : Type} (m : D A) (k : A -> D B)
  (w : World) (t : list os_call) (w' : World) (c : Z) :
  m w = (t, w', Exited c) -> dbind m k w = (t, w', Exited c).
Proof. unfold dbind. now intros ->. Qed.

Section DaemonClassFacts.
Variable int_of_text : string -> result Z.
Variable run_method : D unit.

(** The pid file cannot be read: [pid] is [None]. *)
Lemma read_pid_absent (self : Daemon) (w : World) :
  (forall c, refused w c = None) ->
  file_text (files w) (pidfile self) = None ->
  read_pid int_of_text self w = ([OpenFile (pidfile self) "r"], w, Done None).
Proof.
  intros Hq Hf. unfold read_pid, try_OSError, open_read, dbind, sys.
  rewrite Hq, Hf. reflexivity.
Qed.

(** The pid file holds an integer: [pid] is that integer. *)
Lemma read_pid_present (self : Daemon) (w : World) (text : string) (n : Z) :
  (forall c, refused w c = None) ->
  file_text (files w) (pidfile self) = Some text ->
  int_of_text (strip text) = Ok n ->
  read_pid int_of_text self w
  = ([OpenFile (pidfile self) "r"; CloseFile (pidfile self)], w, Done (Some n)).
Proof.
  intros Hq Hf Hn.
  unfold read_pid, try_OSError, open_read, read_all, dlift, dbind, sys, dret.
  rewrite Hq, Hf. cbn. rewrite Hf. cbn. rewrite Hn, Hq. reflexivity.
Qed.

(** X18. Without a pid file, [status] prints that the service is not
    running and exits with 3; it changes nothing. *)
Theorem status_without_pidfile (self : Daemon) (w : World) :
  (forall c, refused w c = None) ->
  file_text (files w) (pidfile self) = None ->
  status int_of_text self w
  = ([OpenFile (pidfile self) "r"; PrintLine "service not running"], w, Exited 3).
Proof.
  intros Hq Hf. unfold status, dbind at 1.
  rewrite (read_pid_absent self w Hq Hf). cbn. unfold dbind, sys. rewrite Hq.
  reflexivity.
Qed.

(** X19. With a pid file that holds an integer, [status] answers from the
    file alone: it exits with 0 when the integer is not 0 and with 3 when
    it is, and it never signals the process to see whether it is there. *)
Theorem status_reads_pidfile_only (self : Daemon) (w : World) (text : string) (n : Z) :
  (forall c, refused w c = None) ->
  file_text (files w) (pidfile self) = Some text ->
  int_of_text (strip text) = Ok n ->
  status int_of_text self w
  = ([OpenFile (pidfile self) "r"; CloseFile (pidfile self);
      PrintLine (if n =? 0 then "service not running" else "service running")],
     w, Exited (if n =? 0 then 3 else 0)).
Proof.
  intros Hq Hf Hn. unfold status, dbind at 1.
  rewrite (read_pid_present self w text n Hq Hf Hn). cbn.
  destruct (n =? 0); cbn; unfold dbind, sys; rewrite Hq; reflexivity.
Qed.

(** X20. With a pid file that holds an integer other than 0, [start]
    writes its message and exits with 1: it does not fork and does not
    call [run]. *)
Theorem start_refuses_second_instance
  (self : Daemon) (w : World) (text : string) (n : Z) :
  (forall c, refused w c = None) ->
  file_text (files w) (pidfile self) = Some text ->
  int_of_text (strip text) = Ok n ->
  n <> 0 ->
  start int_of_text run_method self w
  = ([OpenFile (pidfile self) "r"; CloseFile (pidfile self);
      StderrWrite ("pidfile " ++ pidfile self
                   ++ " already exists. Daemon already running?" ++ nl)],
     w, Exited 1).
Proof.
  intros Hq Hf Hn Hz. unfold start, dbind at 1.
  rewrite (read_pid_present self w text n Hq Hf Hn). cbn.
  apply Z.eqb_neq in Hz. rewrite Hz. cbn. unfold dbind, sys. rewrite Hq.
  reflexivity.
Qed.

(** X21. Without a pid file, [start] goes on: what it does after the
    look at the pid file is [daemonize] and then [run]. *)
Theorem start_without_pidfile (self : Daemon) (w : World) :
  (forall c, refused w c = None) ->
  file_text (files w) (pidfile self) = None ->
  start int_of_text run_method self w
  = let '(t, w', r) := dbind (daemonize self) (fun _ => run_method) w in
    (OpenFile (pidfile self) "r" :: t, w', r).
Proof.
  intros Hq Hf. unfold start.
  rewrite (dbind_done _ _ _ _ _ _ (read_pid_absent self w Hq Hf)).
  cbn [pid_truthy]. rewrite dbind_dret.
  now destruct (dbind (daemonize self) (fun _ => run_method) w) as [[t w'] r].
Qed.

(** X22. Without a pid file, [stop] writes its message and returns: it
    signals nothing and does not exit, so that [restart] can go on. *)
Theorem stop_without_pidfile (self : Daemon) (w : World) :
  (forall c, refused w c = None) ->
  file_text (files w) (pidfile self) = None ->
  stop int_of_text self w
  = ([OpenFile (pidfile self) "r";
      StderrWrite ("pidfile " ++ pidfile self
                   ++ " does not exist. Daemon not running?" ++ nl)],
     w, Done tt).
Proof.
  intros Hq Hf. unfold stop, dbind at 1.
  rewrite (read_pid_absent self w Hq Hf). cbn. unfold sys. rewrite Hq.
  reflexivity.
Qed.
End DaemonClassFacts.

Lemma kill_until_raise_script (pid : Z) (k : nat) (e : exn) (rest : list (option exn)) :
  kill_until_raise pid (repeat None k ++ Some e :: rest)%list
  = (kill_calls pid k, rest, Some e).
Proof.
  induction k as [|k IH]; [reflexivity|].
  cbn [repeat app kill_until_raise kill_calls]. now rewrite IH.
Qed.

Lemma file_text_removed (fs : list (string * string)) (file : string) :
  file_text (file_remove fs file) file = None.
Proof.
  induction fs as [|[name text] fs IH]; [reflexivity|]. cbn [file_remove].
  destruct (String.eqb name file) eqn:E; [exact IH|].
  cbn [file_text]. now rewrite E.
Qed.

Lemma file_text_written (fs : list (string * string)) (file text : string) :
  file_text (file_write fs file text) file = Some text.
Proof. unfold file_write. cbn [file_text]. now rewrite String.eqb_refl. Qed.

Section StopFacts.
Variable int_of_text : string -> result Z.
Variable run_method : D unit.

(** [stop] when the process goes away after [k] signals. *)
Lemma stop_when_gone
  (self : Daemon) (w : World) (text : string) (n : Z) (k : nat) (msg : string)
  (rest : list (option exn)) :
  (forall c, refused w c = None) ->
  file_text (files w) (pidfile self) = Some text ->
  int_of_text (strip text) = Ok n ->
  n <> 0 ->
  kills w = (repeat None k ++ Some (OSError msg) :: rest)%list ->
  0 < find msg "No such process" ->
  stop int_of_text self w
  = (([OpenFile (pidfile self) "r"; CloseFile (pidfile self)]
        ++ kill_calls n k ++ [Remove (pidfile self)])%list,
     with_files (with_kills w rest) (file_remove (files w) (pidfile self)),
     Done tt).
Proof.
  intros Hq Hf Hn Hz Hk Hfind. unfold stop.
  rewrite (dbind_done _ _ _ _ _ _ (read_pid_present int_of_text self w text n Hq Hf Hn)).
  cbn [pid_truthy pid_number]. apply Z.eqb_neq in Hz. rewrite Hz. cbn [negb].
  unfold try_OSError, kill_loop. rewrite Hk, kill_until_raise_script.
  apply Z.gtb_lt in Hfind. rewrite Hfind.
  unfold dbind, path_exists, os_remove, dbind, sys. cbn [files with_kills refused].
  rewrite Hf. cbv beta. cbn [files with_kills refused]. rewrite Hq.
  cbn [files with_kills]. rewrite Hf. cbn [app]. reflexivity.
Qed.

(** X23. [stop] signals the process of the pid file again and again, a
    pause after each signal, until [os.kill] raises; when the text of the
    error has [No such process] in it after its first character, [stop]
    removes the pid file and returns, and the pid file is gone. *)
Theorem stop_kills_until_gone
  (self : Daemon) (w : World) (text : string) (n : Z) (k : nat) (msg : string)
  (rest : list (option exn)) :
  (forall c, refused w c = None) ->
  file_text (files w) (pidfile self) = Some text ->
  int_of_text (strip text) = Ok n ->
  n <> 0 ->
  kills w = (repeat None k ++ Some (OSError msg) :: rest)%list ->
  0 < find msg "No such process" ->
  stop int_of_text self w
  = (([OpenFile (pidfile self) "r"; CloseFile (pidfile self)]
        ++ kill_calls n k ++ [Remove (pidfile self)])%list,
     with_files (with_kills w rest) (file_remove (files w) (pidfile self)),
     Done tt)
  /\ file_text (file_remove (files w) (pidfile self)) (pidfile self) = None.
Proof.
  intros Hq Hf Hn Hz Hk Hfind. split; [|apply file_text_removed].
  exact (stop_when_gone self w text n k msg rest Hq Hf Hn Hz Hk Hfind).
Qed.

(** X24. When [os.kill] raises an [OSError] whose text does not have
    [No such process] after its first character (the process may not be
    signalled, or the text starts with these words), [stop] prints the
    text and exits with 1; the pid file stays. *)
Theorem stop_gives_up_on_other_error
  (self : Daemon) (w : World) (text : string) (n : Z) (k : nat) (msg : string)
  (rest : list (option exn)) :
  (forall c, refused w c = None) ->
  file_text (files w) (pidfile self) = Some text ->
  int_of_text (strip text) = Ok n ->
  n <> 0 ->
  kills w = (repeat None k ++ Some (OSError msg) :: rest)%list ->
  find msg "No such process" <= 0 ->
  stop int_of_text self w
  = (([OpenFile (pidfile self) "r"; CloseFile (pidfile self)]
        ++ kill_calls n k ++ [PrintLine msg])%list,
     with_kills w rest, Exited 1).
Proof.
  intros Hq Hf Hn Hz Hk Hfind. unfold stop.
  rewrite (dbind_done _ _ _ _ _ _ (read_pid_present int_of_text self w text n Hq Hf Hn)).
  cbn [pid_truthy pid_number]. apply Z.eqb_neq in Hz. rewrite Hz. cbn [negb].
  unfold try_OSError, kill_loop. rewrite Hk, kill_until_raise_script.
  assert (Hg : (find msg "No such process" >? 0) = false).
  { destruct (find msg "No such process" >? 0) eqn:E; [|reflexivity].
    apply Z.gtb_lt in E. lia. }
  rewrite Hg. unfold dbind, sys, sys_exit. cbn [refused with_kills].
  rewrite Hq. cbn [app]. rewrite ?app_nil_r. reflexivity.
Qed.

(** X25. [restart] after a [stop] that found the process gone: the pid
    file has been removed, so [start] finds none and goes on to
    [daemonize] and [run] in the world [stop] has left. *)
Theorem restart_after_stop
  (self : Daemon) (w : World) (text : string) (n : Z) (k : nat) (msg : string)
  (rest : list (option exn)) :
  (forall c, refused w c = None) ->
  file_text (files w) (pidfile self) = Some text ->
  int_of_text (strip text) = Ok n ->
  n <> 0 ->
  kills w = (repeat None k ++ Some (OSError msg) :: rest)%list ->
  0 < find msg "No such process" ->
  restart int_of_text run_method self w
  = let '(t, w', r) :=
      dbind (daemonize self) (fun _ => run_method)
        (with_files (with_kills w rest) (file_remove (files w) (pidfile self))) in
    (([OpenFile (pidfile self) "r"; CloseFile (pidfile self)]
        ++ kill_calls n k
        ++ [Remove (pidfile self); OpenFile (pidfile self) "r"] ++ t)%list,
     w', r).
Proof.
  intros Hq Hf Hn Hz Hk Hfind. unfold restart.
  rewrite (dbind_done _ _ _ _ _ _
             (stop_when_gone self w text n k msg rest Hq Hf Hn Hz Hk Hfind)).
  unfold start.
  rewrite (dbind_done _ _ _ _ _ _
             (read_pid_absent int_of_text self
                (with_files (with_kills w rest) (file_remove (files w) (pidfile self)))
                Hq (file_text_removed (files w) (pidfile self)))).
  cbn [pid_truthy]. rewrite dbind_dret.
  destruct (dbind (daemonize self) (fun _ => run_method) _) as [[t w'] r].
  cbn [app]. rewrite <- !app_assoc. reflexivity.
Qed.
End StopFacts.

Lemma stop_kills_until_gone_witness :
  stop int_decimal watcher_daemon
    (quiet_world [("/var/run/watcher.pid", "4242" ++ nl)] []
       [None; None; Some (OSError "[Errno 3] No such process")] 77)
  = ([OpenFile "/var/run/watcher.pid" "r"; CloseFile "/var/run/watcher.pid";
      Kill 4242; Sleep; Kill 4242; Sleep; Kill 4242; Remove "/var/run/watcher.pid"],
     quiet_world [] [] [] 77, Done tt).
Proof.
  refine (proj1 (stop_kills_until_gone int_decimal watcher_daemon
                   (quiet_world [("/var/run/watcher.pid", "4242" ++ nl)] []
                      [None; None; Some (OSError "[Errno 3] No such process")] 77)
                   ("4242" ++ nl) 4242 2 "[Errno 3] No such process" []
                   (fun _ => eq_refl) eq_refl eq_refl _ eq_refl eq_refl)).
  discriminate.
Defined.

Lemma stop_gives_up_on_other_error_witness :
  stop int_decimal watcher_daemon
    (quiet_world [("/var/run/watcher.pid", "1" ++ nl)] []
       [Some (OSError "[Errno 1] Operation not permitted")] 77)
  = ([OpenFile "/var/run/watcher.pid" "r"; CloseFile "/var/run/watcher.pid";
      Kill 1; PrintLine "[Errno 1] Operation not permitted"],
     quiet_world [("/var/run/watcher.pid", "1" ++ nl)] [] [] 77, Exited 1).
Proof.
  refine (stop_gives_up_on_other_error int_decimal watcher_daemon
            (quiet_world [("/var/run/watcher.pid", "1" ++ nl)] []
               [Some (OSError "[Errno 1] Operation not permitted")] 77)
            ("1" ++ nl) 1 0 "[Errno 1] Operation not permitted" []
            (fun _ => eq_refl) eq_refl eq_refl _ eq_refl _); discriminate.
Defined.

Lemma restart_after_stop_witness :
  restart int_decimal run_stub watcher_daemon
    (quiet_world [("/var/run/watcher.pid", "4242" ++ nl)] [ForkReturns 4243]
       [Some (OSError "[Errno 3] No such process")] 77)
  = ([OpenFile "/var/run/watcher.pid" "r"; CloseFile "/var/run/watcher.pid";
      Kill 4242; Remove "/var/run/watcher.pid";
      OpenFile "/var/run/watcher.pid" "r"; Fork],
     quiet_world [] [] [] 77, Exited 0).
Proof.
  refine (restart_after_stop int_decimal run_stub watcher_daemon
            (quiet_world [("/var/run/watcher.pid", "4242" ++ nl)] [ForkReturns 4243]
               [Some (OSError "[Errno 3] No such process")] 77)
            ("4242" ++ nl) 4242 0 "[Errno 3] No such process" []
            (fun _ => eq_refl) eq_refl eq_refl _ eq_refl eq_refl).
  discriminate.
Defined.

Lemma status_without_pidfile_witness :
  status int_decimal watcher_daemon (quiet_world [] [] [] 77)
  = ([OpenFile "/var/run/watcher.pid" "r"; PrintLine "service not running"],
     quiet_world [] [] [] 77, Exited 3).
Proof.
  exact (status_without_pidfile int_decimal watcher_daemon (quiet_world [] [] [] 77)
           (fun _ => eq_refl) eq_refl).
Defined.

Lemma status_reads_pidfile_only_witness :
  status int_decimal watcher_daemon
    (quiet_world [("/var/run/watcher.pid", "4242" ++ nl)] [] [] 77)
  = ([OpenFile "/var/run/watcher.pid" "r"; CloseFile "/var/run/watcher.pid";
      PrintLine "service running"],
     quiet_world [("/var/run/watcher.pid", "4242" ++ nl)] [] [] 77, Exited 0).
Proof.
  exact (status_reads_pidfile_only int_decimal watcher_daemon
           (quiet_world [("/var/run/watcher.pid", "4242" ++ nl)] [] [] 77)
           ("4242" ++ nl) 4242 (fun _ => eq_refl) eq_refl eq_refl).
Defined.

Lemma start_refuses_second_instance_witness :
  start int_decimal run_stub watcher_daemon
    (quiet_world [("/var/run/watcher.pid", "4242" ++ nl)] [ForkReturns 0] [] 77)
  = ([OpenFile "/var/run/watcher.pid" "r"; CloseFile "/var/run/watcher.pid";
      StderrWrite ("pidfile /var/run/watcher.pid already exists. Daemon already running?"
                   ++ nl)],
     quiet_world [("/var/run/watcher.pid", "4242" ++ nl)] [ForkReturns 0] [] 77,
     Exited 1).
Proof.
  refine (start_refuses_second_instance int_decimal run_stub watcher_daemon
            (quiet_world [("/var/run/watcher.pid", "4242" ++ nl)] [ForkReturns 0] [] 77)
            ("4242" ++ nl) 4242 (fun _ => eq_refl) eq_refl eq_refl _).
  discriminate.
Defined.

Lemma start_without_pidfile_witness :
  start int_decimal run_stub watcher_daemon (quiet_world [] [ForkReturns 9] [] 77)
  = ([OpenFile "/var/run/watcher.pid" "r"; Fork], quiet_world [] [] [] 77, Exited 0).
Proof.
  exact (start_without_pidfile int_decimal run_stub watcher_daemon
           (quiet_world [] [ForkReturns 9] [] 77) (fun _ => eq_refl) eq_refl).
Defined.

Lemma stop_without_pidfile_witness :
  stop int_decimal watcher_daemon (quiet_world [] [] [None] 77)
  = ([OpenFile "/var/run/watcher.pid" "r";
      StderrWrite ("pidfile /var/run/watcher.pid does not exist. Daemon not running?"
                   ++ nl)],
     quiet_world [] [] [None] 77, Done tt).
Proof.
  exact (stop_without_pidfile int_decimal watcher_daemon (quiet_world [] [] [None] 77)
           (fun _ => eq_refl) eq_refl).
Defined.

(** ** [daemonize] *)

Lemma rstrip_no_space (s : string) : no_space s = true -> rstrip s = s.
Proof.
  induction s as [|c s IH]; [reflexivity|]. cbn [no_space rstrip]. intros H.
  apply andb_true_iff in H as [Hc Hs]. rewrite (IH Hs).
  apply negb_true_iff in Hc. destruct s; [now rewrite Hc | reflexivity].
Qed.

Lemma lstrip_no_space (s : string) : no_space s = true -> lstrip s = s.
Proof.
  destruct s as [|c s]; [reflexivity|]. cbn [no_space lstrip]. intros H.
  apply andb_true_iff in H as [Hc _]. apply negb_true_iff in Hc. now rewrite Hc.
Qed.

Lemma no_space_uint (d : Decimal.uint) : no_space (NilEmpty.string_of_uint d) = true.
Proof. induction d; cbn [NilEmpty.string_of_uint no_space]; auto. Qed.

Lemma no_space_str_of_Z (n : Z) : no_space (str_of_Z n) = true.
Proof.
  unfold str_of_Z, NilZero.string_of_int, NilZero.string_of_uint.
  destruct (Z.to_int n) as [d|d]; destruct d; try reflexivity;
    cbn [no_space]; rewrite ?no_space_uint; reflexivity.
Qed.

(** The text [daemonize] writes is read back as the text of the pid. *)
Lemma strip_pid_line (n : Z) : strip (str_of_Z n ++ nl) = str_of_Z n.
Proof.
  unfold strip. rewrite rstrip_app_space by reflexivity.
  rewrite rstrip_no_space by apply no_space_str_of_Z.
  apply lstrip_no_space, no_space_str_of_Z.
Qed.

Ltac run_world Hq :=
  repeat (cbn [refused files forks kills this_pid with_forks with_files with_kills
               app fst snd];
          rewrite ?Hq).

Section DaemonizeFacts.
Variable int_of_text : string -> result Z.
Variable run_method : D unit.

Lemma daemonize_in_parent (self : Daemon) (w : World) (pid : Z) (rest : list fork_result) :
  forks w = ForkReturns pid :: rest ->
  0 < pid ->
  daemonize self w = ([Fork], with_forks w rest, Exited 0).
Proof.
  intros Hf Hp. unfold daemonize, fork_or_exit, os_fork, dbind at 1.
  unfold dbind at 1. rewrite Hf. apply Z.gtb_lt in Hp. rewrite Hp. reflexivity.
Qed.

(** X26. In the process that called it, where the first [os.fork]
    returns the pid of the child, [daemonize] exits with 0 at once; so
    [start] ends there with 0 and never calls [run], which is left to the
    child. *)
Theorem first_fork_parent_exits
  (self : Daemon) (w : World) (pid : Z) (rest : list fork_result) :
  (forall c, refused w c = None) ->
  file_text (files w) (pidfile self) = None ->
  forks w = ForkReturns pid :: rest ->
  0 < pid ->
  daemonize self w = ([Fork], with_forks w rest, Exited 0)
  /\ start int_of_text run_method self w
     = ([OpenFile (pidfile self) "r"; Fork], with_forks w rest, Exited 0).
Proof.
  intros Hq Hf Hk Hp.
  pose proof (daemonize_in_parent self w pid rest Hk Hp) as Hd.
  split; [exact Hd|]. unfold start.
  rewrite (dbind_done _ _ _ _ _ _ (read_pid_absent int_of_text self w Hq Hf)).
  cbn [pid_truthy]. rewrite dbind_dret.
  now rewrite (dbind_stops _ _ _ _ _ _ Hd).
Qed.

(** X27. When the second [os.fork] raises [OSError], [daemonize] has
    changed directory, session and umask, writes the message of fork
    number 2 with the error number and text, and exits with 1: no file is
    opened and no pid file is written. *)
Theorem second_fork_failure
  (self : Daemon) (w : World) (pid : Z) (errno : Z) (strerror : string)
  (rest : list fork_result) :
  (forall c, refused w c = None) ->
  forks w = ForkReturns pid :: ForkFails errno strerror :: rest ->
  pid <= 0 ->
  daemonize self w
  = ([Fork; Chdir "/"; Setsid; Umask 0; Fork;
      StderrWrite ("fork #2 failed: " ++ str_of_Z errno ++ " (" ++ strerror ++ ")" ++ nl)],
     with_forks w rest, Exited 1).
Proof.
  intros Hq Hk Hp.
  assert (Hg : (pid >? 0) = false).
  { destruct (pid >? 0) eqn:E; [apply Z.gtb_lt in E; lia | reflexivity]. }
  unfold daemonize, fork_or_exit, os_fork, dbind, sys, sys_exit, dret.
  rewrite Hk, Hg. run_world Hq. reflexivity.
Qed.

(** X28. In the child of both forks, with the file for standard input
    there, [daemonize] returns after it has written the pid of the process
    and a newline to the pid file; reading the pid file back as [start],
    [stop] and [status] do gives that pid. *)
Theorem daemonize_writes_pid
  (self : Daemon) (w : World) (p1 p2 : Z) (rest : list fork_result) :
  (forall c, refused w c = None) ->
  forks w = ForkReturns p1 :: ForkReturns p2 :: rest ->
  p1 <= 0 ->
  p2 <= 0 ->
  file_text (files w) (stdin self) <> None ->
  int_of_text (str_of_Z (this_pid w)) = Ok (this_pid w) ->
  exists w',
    daemonize self w
    = ([Fork; Chdir "/"; Setsid; Umask 0; Fork; Flush "stdout"; Flush "stderr";
        OpenFile (stdin self) "r"; OpenFile (stdout self) "a+";
        OpenFile (stderr self) "a+"; Dup2 (stdin self) "stdin";
        Dup2 (stdout self) "stdout"; Dup2 (stderr self) "stderr";
        AtexitRegister (pidfile self); OpenFile (pidfile self) "w+";
        WriteFile (pidfile self) (str_of_Z (this_pid w) ++ nl)],
       w', Done tt)
    /\ file_text (files w') (pidfile self) = Some (str_of_Z (this_pid w) ++ nl)
    /\ read_pid int_of_text self w'
       = ([OpenFile (pidfile self) "r"; CloseFile (pidfile self)], w',
          Done (Some (this_pid w))).
Proof.
  intros Hq Hk H1 H2 Hin Hint.
  assert (G1 : (p1 >? 0) = false).
  { destruct (p1 >? 0) eqn:E; [apply Z.gtb_lt in E; lia | reflexivity]. }
  assert (G2 : (p2 >? 0) = false).
  { destruct (p2 >? 0) eqn:E; [apply Z.gtb_lt in E; lia | reflexivity]. }
  destruct (file_text (files w) (stdin self)) as [tin|] eqn:Ein; [clear Hin | congruence].
  destruct (file_text (files w) (stdout self)) eqn:Eout;
    [ destruct (file_text (files w) (stderr self)) eqn:Eerr
    | destruct (file_text (file_write (files w) (stdout self) EmptyString)
                  (stderr self)) eqn:Eerr ];
    (eexists; split;
     [ unfold daemonize, fork_or_exit, os_fork, open_read, open_append, open_write,
         write_text, getpid, dbind, sys, sys_exit, dret;
       rewrite Hk, G1; run_world Hq; rewrite G2; run_world Hq; rewrite Ein;
       run_world Hq; rewrite Eout; run_world Hq; rewrite Eerr; run_world Hq;
       reflexivity
     | split;
       [ cbn [files with_files]; apply file_text_written
       | apply read_pid_present with (text := str_of_Z (this_pid w) ++ nl);
         [ intros c; cbn [refused with_files]; apply Hq
         | cbn [files with_files]; apply file_text_written
         | now rewrite strip_pid_line ] ] ]).
Qed.
End DaemonizeFacts.

Lemma first_fork_parent_exits_witness :
  start int_decimal run_stub watcher_daemon (quiet_world [] [ForkReturns 4243] [] 77)
  = ([OpenFile "/var/run/watcher.pid" "r"; Fork], quiet_world [] [] [] 77, Exited 0).
Proof.
  refine (proj2 (first_fork_parent_exits int_decimal run_stub watcher_daemon
                   (quiet_world [] [ForkReturns 4243] [] 77) 4243 []
                   (fun _ => eq_refl) eq_refl eq_refl _)).
  reflexivity.
Defined.

Lemma second_fork_failure_witness :
  daemonize watcher_daemon
    (quiet_world [] [ForkReturns 0; ForkFails 11 "Resource temporarily unavailable"] [] 77)
  = ([Fork; Chdir "/"; Setsid; Umask 0; Fork;
      StderrWrite ("fork #2 failed: 11 (Resource temporarily unavailable)" ++ nl)],
     quiet_world [] [] [] 77, Exited 1).
Proof.
  refine (second_fork_failure watcher_daemon
            (quiet_world [] [ForkReturns 0; ForkFails 11 "Resource temporarily unavailable"]
               [] 77)
            0 11 "Resource temporarily unavailable" [] (fun _ => eq_refl) eq_refl _).
  discriminate.
Defined.

Lemma daemonize_writes_pid_witness :
  exists w',
    daemonize watcher_daemon
      (quiet_world [("/dev/null", EmptyString)] [ForkReturns 0; ForkReturns 0] [] 77)
    = ([Fork; Chdir "/"; Setsid; Umask 0; Fork; Flush "stdout"; Flush "stderr";
        OpenFile "/dev/null" "r"; OpenFile "/var/log/watcher.log" "a+";
        OpenFile "/var/log/watcher.log" "a+"; Dup2 "/dev/null" "stdin";
        Dup2 "/var/log/watcher.log" "stdout"; Dup2 "/var/log/watcher.log" "stderr";
        AtexitRegister "/var/run/watcher.pid"; OpenFile "/var/run/watcher.pid" "w+";
        WriteFile "/var/run/watcher.pid" ("77" ++ nl)],
       w', Done tt)
    /\ file_text (files w') "/var/run/watcher.pid" = Some ("77" ++ nl)
    /\ read_pid int_decimal watcher_daemon w'
       = ([OpenFile "/var/run/watcher.pid" "r"; CloseFile "/var/run/watcher.pid"], w',
          Done (Some 77)).
Proof.
  refine (daemonize_writes_pid int_decimal watcher_daemon
            (quiet_world [("/dev/null", EmptyString)] [ForkReturns 0; ForkReturns 0] [] 77)
            0 0 [] (fun _ => eq_refl) eq_refl _ _ _ eq_refl); discriminate.
Defined.

(** ** The script *)

Section ScriptFacts.
Variable F : InotifyFlags.
Variable ExcludeFilter : list string -> result unit.
Variable add_watch : WatchRequest -> result wdd.
Variable int_of_text : string -> result Z.
Variable config_read : list string -> list string * Config.
Variable expanduser : string -> string.

(** X29. When no configuration file could be read, the script writes its
    message and exits with 4 whatever the command is: no daemon is made
    and no pid file is looked at. *)
Theorem main_without_config
  (args_config : option string) (args_command : string) (w : World) :
  (forall c, refused w c = None) ->
  fst (config_read (config_names expanduser args_config)) = [] ->
  main F ExcludeFilter add_watch int_of_text config_read expanduser
    args_config args_command w
  = ([StderrWrite ("Failed to read config file. Try -c parameter" ++ nl)], w, Exited 4).
Proof.
  intros Hq Hc. unfold main.
  destruct (config_read (config_names expanduser args_config)) as [confok config].
  cbn [fst] in Hc. subst confok. unfold dbind, sys, sys_exit. rewrite Hq.
  reflexivity.
Qed.


End ScriptFacts.

Lemma main_without_config_witness :
  main linux_flags compile_ok add_watch_ok int_decimal read_no_name home_of_root
    (Some "/no/such.ini") "start" (quiet_world [] [] [] 77)
  = ([StderrWrite ("Failed to read config file. Try -c parameter" ++ nl)],
     quiet_world [] [] [] 77, Exited 4).
Proof.
  exact (main_without_config linux_flags compile_ok add_watch_ok int_decimal
           read_no_name home_of_root (Some "/no/such.ini") "start"
           (quiet_world [] [] [] 77) (fun _ => eq_refl) eq_refl).
Defined.

